(** * Dynon D120/D180 EMS serial input: frame checksum and fixed-width decoder

    Shallow embedding of [src/lib/inputs/serial_d120.py]: the two pure
    methods [_ems_checksum_ok] (frame validator) and [_parse_ems_line]
    (frame decoder), together with the pieces of the Python runtime they
    call ([bytes.rstrip], [bytes.decode("ascii")], [int(text, base)], [sum],
    slicing, true division, [try ... except Exception]). *)

From Stdlib Require Import ZArith NArith List Bool Lia.
From Stdlib Require Import Strings.Ascii Strings.String Strings.Byte.
From Stdlib Require Import Floats.PrimFloat Numbers.Cyclic.Int63.Uint63.
From Stdlib Require Import Sorting.Permutation.
Import ListNotations.

(** ** The Python runtime used by the module *)
Module Py.

(** Exceptions the modelled operations can raise. *)
Inductive exn : Type :=
| ValueError          (* int(): invalid literal *)
| UnicodeDecodeError. (* bytes.decode("ascii") on a byte above 0x7f *)

(** Both are subclasses of [Exception]. *)
Definition is_Exception (e : exn) : bool :=
  match e with
  | ValueError => true
  | UnicodeDecodeError => true
  end.

(** Outcome of evaluating a Python expression or block. *)
Inductive result (A : Type) : Type :=
| Ok (a : A)
| Raise (e : exn).
Arguments Ok {A} a.
Arguments Raise {A} e.

Definition bind {A B} (m : result A) (k : A -> result B) : result B :=
  match m with
  | Ok a => k a
  | Raise e => Raise e
  end.

(** [try: body / except Exception: return handler]. *)
Definition try_except_Exception {A} (body : result A) (handler : A) : result A :=
  match body with
  | Ok a => Ok a
  | Raise e => if is_Exception e then Ok handler else Raise e
  end.

(** [bytes] values, and [str] values whose code points are below 256. *)
Definition bytes := list byte.
Definition str := list ascii.

Definition ord (c : ascii) : N := N_of_ascii c.

(** *** Slicing (indices are clamped, never an error) *)

(** [l[i:j]] for [0 <= i <= j]. *)
Definition slice {A} (l : list A) (i j : nat) : list A :=
  firstn (j - i) (skipn i l).

(** [l[-n:]] for [n > 0]. *)
Definition slice_last {A} (n : nat) (l : list A) : list A :=
  skipn (List.length l - n) l.

(** [l[:-n]] for [n > 0]. *)
Definition slice_but_last {A} (n : nat) (l : list A) : list A :=
  firstn (List.length l - n) l.

(** *** [bytes] operations *)

(** [l.rstrip(chars)]: drop the longest suffix made of bytes in [chars]. *)
Fixpoint rstrip (chars : byte -> bool) (l : bytes) : bytes :=
  match l with
  | [] => []
  | b :: t =>
      match rstrip chars t with
      | [] => if chars b then [] else [b]
      | t' => b :: t'
      end
  end.

(** The argument [b"\r\n"] of [rstrip] as a membership test. *)
Definition CRLF (b : byte) : bool :=
  match b with
  | x0d | x0a => true
  | _ => false
  end.

(** [b.decode("ascii")] with the default strict error handler. *)
Definition decode_ascii (b : bytes) : result str :=
  if forallb (fun x => (Byte.to_N x <? 128)%N) b
  then Ok (map ascii_of_byte b)
  else Raise UnicodeDecodeError.

(** [sum(b)] over a bytes object: the sum of the byte values. *)
Definition sum (b : bytes) : Z :=
  fold_right (fun x acc => (Z.of_N (Byte.to_N x) + acc)%Z) 0%Z b.

(** *** [int(text, base)] for base 10 and 16

    Follows CPython's [PyLong_FromUnicodeObject] / [PyLong_FromString]:
    optional surrounding whitespace, an optional sign, for base 16 an
    optional [0x]/[0X] prefix (which may be followed by one underscore),
    then digits that may be separated by single underscores. *)

(** White space the conversion strips: the C-locale [isspace] set, and
    the Latin-1 white space U+0085 and U+00A0 which the conversion first
    rewrites to a blank. *)
Definition is_space (c : ascii) : bool :=
  let n := ord c in
  ((9 <=? n) && (n <=? 13) || (n =? 32) || (n =? 133) || (n =? 160))%N.

(** [_PyLong_DigitValue]: 37 marks a character that is no digit in any base. *)
Definition digit_value (c : ascii) : N :=
  let n := ord c in
  if ((48 <=? n) && (n <=? 57))%N then (n - 48)%N
  else if ((97 <=? n) && (n <=? 122))%N then (n - 87)%N
  else if ((65 <=? n) && (n <=? 90))%N then (n - 55)%N
  else 37%N.

Definition is_char (x : string) (c : ascii) : bool :=
  match x with
  | String a EmptyString => Ascii.eqb a c
  | _ => false
  end.

Fixpoint skip_space (l : str) : str :=
  match l with
  | c :: t => if is_space c then skip_space t else l
  | [] => []
  end.

(** The digit loop: returns the value, the number of digits read and the
    unread rest; [None] on a doubled or trailing underscore. *)
Fixpoint scan_digits (base : N) (l : str) (prev_us : bool) (acc : N) (n : nat)
  : option (N * nat * str) :=
  match l with
  | c :: t =>
      if is_char "_" c then
        if prev_us then None else scan_digits base t true acc n
      else if (digit_value c <? base)%N then
        scan_digits base t false (acc * base + digit_value c)%N (S n)
      else if prev_us then None else Some (acc, n, l)
  | [] => if prev_us then None else Some (acc, n, [])
  end.

Definition skip_sign (l : str) : Z * str :=
  match l with
  | c :: t =>
      if is_char "+" c then (1%Z, t)
      else if is_char "-" c then ((-1)%Z, t)
      else (1%Z, l)
  | [] => (1%Z, [])
  end.

Definition skip_prefix (base : N) (l : str) : str :=
  match l with
  | z :: x :: t =>
      if is_char "0" z && (base =? 16)%N && (is_char "x" x || is_char "X" x)
      then match t with
           | u :: t' => if is_char "_" u then t' else t
           | [] => t
           end
      else l
  | _ => l
  end.

Definition int_ (text : str) (base : N) : result Z :=
  let (sign, l1) := skip_sign (skip_space text) in
  let l2 := skip_prefix base l1 in
  match l2 with
  | c :: _ => if is_char "_" c then Raise ValueError else
      match scan_digits base l2 false 0%N 0 with
      | Some (v, S _, rest) =>
          match skip_space rest with
          | [] => Ok (sign * Z.of_N v)%Z
          | _ :: _ => Raise ValueError
          end
      | _ => Raise ValueError
      end
  | [] => Raise ValueError
  end.

(** *** [float] *)

(** [float(z)] for an int of at most 53 bits (exact). *)
Definition float_of_int (z : Z) : float :=
  if (z <? 0)%Z then PrimFloat.opp (PrimFloat.of_uint63 (Uint63.of_Z (- z)))
  else PrimFloat.of_uint63 (Uint63.of_Z z).

(** [z / d] with an int numerator and a float denominator. *)
Definition truediv (z : Z) (d : float) : float :=
  PrimFloat.div (float_of_int z) d.

(** *** Values stored in a dict literal, and dicts with [str] keys *)
Inductive value : Type :=
| VInt (z : Z)
| VFloat (f : float)
| VList (l : list Z).

Definition dict := list (string * value).

Fixpoint get (d : dict) (k : string) : option value :=
  match d with
  | [] => None
  | (k', v) :: d' => if String.eqb k k' then Some v else get d' k
  end.

End Py.

Import Py.

(** Literals. *)
Definition bytes_of (x : string) : bytes := list_byte_of_string x.
Definition str_of (x : string) : str := list_ascii_of_string x.

(** ** The input module *)
Module serial_d120.

(** *** [_ems_checksum_ok]: self-zeroing checksum of a raw line *)
Definition _ems_checksum_ok (raw : bytes) : result bool :=
  try_except_Exception
    (let body := rstrip CRLF raw in
     if List.length body <? 4 then Ok false else
     bind (decode_ascii (slice_last 2 body)) (fun chk_hex =>
     bind (int_ chk_hex 16) (fun chk_val =>
     let payload := slice_but_last 2 body in
     let total := Z.land (sum payload + chk_val) 255 in
     Ok (total =? 0)%Z)))
    false.

(** *** [_parse_ems_line]: the fixed-width decoder

    The body of the [try] block runs in a monad that threads the
    closure variable [i] (the read offset) and may raise. *)
Definition M (A : Type) : Type := nat -> result (A * nat).

Definition ret {A} (a : A) : M A := fun i => Ok (a, i).

Definition mbind {A B} (m : M A) (k : A -> M B) : M B :=
  fun i =>
    match m i with
    | Ok (a, i') => k a i'
    | Raise e => Raise e
    end.

Definition lift {A} (r : result A) : M A :=
  fun i =>
    match r with
    | Ok a => Ok (a, i)
    | Raise e => Raise e
    end.

Notation "x <- m ;; k" := (mbind m (fun x => k))
  (at level 61, m at next level, right associativity).

(** [[m for _ in range(n)]]. *)
Fixpoint comprehension {A} (n : nat) (m : M A) : M (list A) :=
  match n with
  | O => ret []
  | S n' => x <- m ;; xs <- comprehension n' m ;; ret (x :: xs)
  end.

Section Decoder.

Variable s : str.

(** The closure [take]: slice [n] characters at [i], then advance [i]. *)
Definition take (n : nat) : M str :=
  fun i => Ok (slice s i (i + n), i + n).

(** [int(take(n))]. *)
Definition int_take (n : nat) : M Z :=
  v <- take n ;; lift (int_ v 10).

Definition parse_body : M dict :=
  (* Time (Zulu): hhmmss + 1/64 sec counter *)
  _z_h <- int_take 2 ;; _z_m <- int_take 2 ;; _z_s <- int_take 2 ;; _frac <- int_take 2 ;;
  (* MAP inHg x100 *)
  map_raw <- int_take 4 ;;
  (* Oil temp (signed) and oil press PSI *)
  oil_temp_str <- take 3 ;;
  oil_temp_f <- lift (int_ oil_temp_str 10) ;;
  oil_psi <- int_take 3 ;;
  (* Fuel press (PSI x10), Volts (x10), Amps (signed) *)
  fuel_psi_tenths <- int_take 3 ;;
  volts_tenths <- int_take 3 ;;
  amps_str <- take 3 ;;
  amps_a <- lift (int_ amps_str 10) ;;
  (* RPM/10, Fuel flow (GPH x10) *)
  rpm_div10 <- int_take 3 ;;
  ff_tenths <- int_take 3 ;;
  (* Fuel remaining (g x10), Fuel level tank1 (g x10), tank2 (g x10) *)
  fuel_remain_tenths <- int_take 4 ;;
  fuel_l1_tenths <- int_take 3 ;;
  fuel_l2_tenths <- int_take 3 ;;
  (* GP fields (skip, 8 chars each) *)
  _gp1 <- take 8 ;;
  _gp2 <- take 8 ;;
  _gp3 <- take 8 ;;
  (* GP thermocouple (4) *)
  _gp_tc <- take 4 ;;
  (* EGT 6x4 chars (F, signed) *)
  egt <- comprehension 6 (int_take 4) ;;
  (* CHT 6x3 chars (F, signed) *)
  cht <- comprehension 6 (int_take 3) ;;
  (* Contacts *)
  contact1 <- int_take 1 ;;
  contact2 <- int_take 1 ;;
  _prod_id <- take 2 ;;
  (* Convert units *)
  let map_inhg := truediv map_raw 100 in
  let fuel_psi := truediv fuel_psi_tenths 10 in
  let volts_v := truediv volts_tenths 10 in
  let rpm := (rpm_div10 * 10)%Z in
  let ff_gph := truediv ff_tenths 10 in
  let fuel_rem_g := truediv fuel_remain_tenths 10 in
  let fuel_l1_g := truediv fuel_l1_tenths 10 in
  let fuel_l2_g := truediv fuel_l2_tenths 10 in
  ret [ ("map_inhg", VFloat map_inhg);
        ("oil_temp_f", VInt oil_temp_f);
        ("oil_psi", VInt oil_psi);
        ("fuel_psi", VFloat fuel_psi);
        ("volts_v", VFloat volts_v);
        ("amps_a", VInt amps_a);
        ("rpm", VInt rpm);
        ("ff_gph", VFloat ff_gph);
        ("fuel_remain_g", VFloat fuel_rem_g);
        ("fuel_l1_g", VFloat fuel_l1_g);
        ("fuel_l2_g", VFloat fuel_l2_g);
        ("egt_f", VList egt);
        ("cht_f", VList cht);
        ("contact1", VInt contact1);
        ("contact2", VInt contact2) ]%string.

(** The method: [i = 0], run the body, [except Exception: return None]. *)
Definition _parse_ems_line : result (option dict) :=
  try_except_Exception
    (match parse_body 0 with
     | Ok (d, _) => Ok (Some d)
     | Raise e => Raise e
     end)
    None.

End Decoder.

End serial_d120.

Import serial_d120.

(** ** The decoder as a table of fixed-width fields

    The sequence of [int(take(n))] calls fixes, for every integer
    field, an offset and a width.  [numeric_fields] lists them in the
    order the source reads them; the opaque fields (general-purpose
    inputs, thermocouple, product ID) are the gaps. *)
Definition numeric_fields : list (nat * nat) :=
  [ (0, 2); (2, 2); (4, 2); (6, 2);        (* hh mm ss frac *)
    (8, 4);                                (* MAP *)
    (12, 3); (15, 3);                      (* oil temp, oil press *)
    (18, 3); (21, 3); (24, 3);             (* fuel press, volts, amps *)
    (27, 3); (30, 3);                      (* rpm/10, fuel flow *)
    (33, 4); (37, 3); (40, 3);             (* fuel remaining, tank 1, tank 2 *)
    (71, 4); (75, 4); (79, 4); (83, 4); (87, 4); (91, 4);   (* EGT 1..6 *)
    (95, 3); (98, 3); (101, 3); (104, 3); (107, 3); (110, 3); (* CHT 1..6 *)
    (113, 1); (114, 1) ].                  (* contacts *)

(** [int(s[o:o+w])] for the field [(o, w)]. *)
Definition field (s : str) (f : nat * nat) : result Z :=
  int_ (slice s (fst f) (fst f + snd f)) 10.

Fixpoint mapM {A B} (f : A -> result B) (l : list A) : result (list B) :=
  match l with
  | [] => Ok []
  | x :: t => bind (f x) (fun v => bind (mapM f t) (fun vs => Ok (v :: vs)))
  end.

(** The dict built from the integers of the fields, in table order. *)
Definition record_of (vs : list Z) : dict :=
  let v k := nth k vs 0%Z in
  [ ("map_inhg", VFloat (truediv (v 4) 100));
    ("oil_temp_f", VInt (v 5));
    ("oil_psi", VInt (v 6));
    ("fuel_psi", VFloat (truediv (v 7) 10));
    ("volts_v", VFloat (truediv (v 8) 10));
    ("amps_a", VInt (v 9));
    ("rpm", VInt (v 10%nat * 10)%Z);
    ("ff_gph", VFloat (truediv (v 11) 10));
    ("fuel_remain_g", VFloat (truediv (v 12) 10));
    ("fuel_l1_g", VFloat (truediv (v 13) 10));
    ("fuel_l2_g", VFloat (truediv (v 14) 10));
    ("egt_f", VList (map v (seq 15 6)));
    ("cht_f", VList (map v (seq 21 6)));
    ("contact1", VInt (v 27));
    ("contact2", VInt (v 28)) ]%string.

(** ** Predicates and renderings the statements below are written with *)

(** The two-character hexadecimal rendering of a checksum value, in
    upper case (as the instrument sends it) or lower case. *)
Definition hex_digit (upper : bool) (d : Z) : byte :=
  nth (Z.to_nat d)
      (bytes_of (if upper then "0123456789ABCDEF" else "0123456789abcdef")) x00.

Definition hex2 (upper : bool) (c : Z) : bytes :=
  [hex_digit upper (c / 16); hex_digit upper (c mod 16)].

Definition in_range (lo hi : string) (x : byte) : bool :=
  match bytes_of lo, bytes_of hi with
  | [l], [h] => ((Byte.to_N l <=? Byte.to_N x) && (Byte.to_N x <=? Byte.to_N h))%N
  | _, _ => false
  end.

Definition is_hex_digit (x : byte) : bool :=
  in_range "0" "9" x || in_range "a" "f" x || in_range "A" "F" x.

(** Two hexadecimal digits. *)
Definition is_hex_pair (l : bytes) : bool :=
  match l with
  | [h; l] => is_hex_digit h && is_hex_digit l
  | _ => false
  end.

Definition is_sign (x : byte) : bool :=
  match x with
  | x2b | x2d => true
  | _ => false
  end.

(** ASCII white space: TAB, LF, VT, FF, CR and blank. *)
Definition is_ascii_space (x : byte) : bool :=
  match x with
  | x09 | x0a | x0b | x0c | x0d | x20 => true
  | _ => false
  end.

(** The two-character fields the base-16 conversion accepts: two
    hexadecimal digits, or one hexadecimal digit after a sign or a white
    space, or one hexadecimal digit before a white space. *)
Definition is_hex_field (l : bytes) : bool :=
  match l with
  | [h; l] =>
      is_hex_digit h && is_hex_digit l
      || (is_sign h || is_ascii_space h) && is_hex_digit l
      || is_hex_digit h && is_ascii_space l
  | _ => false
  end.

(** What the validator reads from the last two characters of a body. *)
Definition checksum_field (body : bytes) : result Z :=
  bind (decode_ascii (slice_last 2 body)) (fun chk_hex => int_ chk_hex 16).

(** Position [i] lies inside one of the integer fields. *)
Definition covers (i : nat) (f : nat * nat) : bool :=
  (fst f <=? i) && (i <? fst f + snd f).

Definition numeric_pos (i : nat) : bool := existsb (covers i) numeric_fields.

Definition is_decimal_digit (c : ascii) : bool :=
  ((48 <=? ord c) && (ord c <=? 57))%N.

(** Characters the base-10 conversion tolerates somewhere in a field. *)
Definition int_tolerates (c : ascii) : bool :=
  is_decimal_digit c || is_char "+" c || is_char "-" c || is_char "_" c
  || is_space c.

Definition tolerated (c : ascii) : Prop := int_tolerates c = true.

(** The form of text the base-10 conversion reads as an integer.
    After a first digit come any number of further digits, each of
    which may be preceded by one underscore. *)
Inductive digit_tail : str -> Prop :=
| tail_end : digit_tail []
| tail_digit c l :
    is_decimal_digit c = true -> digit_tail l -> digit_tail (c :: l)
| tail_underscore c l :
    is_decimal_digit c = true -> digit_tail l ->
    digit_tail ("_"%char :: c :: l).

(** One or more decimal digits, single underscores allowed between
    digits only. *)
Definition digit_groups (l : str) : Prop :=
  exists c t, l = c :: t /\ is_decimal_digit c = true /\ digit_tail t.

(** Optional white space, an optional sign, the digits, optional
    white space. *)
Definition int_literal (l : str) : Prop :=
  exists pre sign body post,
    l = pre ++ sign ++ body ++ post /\
    forallb is_space pre = true /\
    (sign = [] \/ sign = ["+"%char] \/ sign = ["-"%char]) /\
    digit_groups body /\
    forallb is_space post = true.

(** The characters of the field [f] of a line. *)
Definition field_text (s : str) (f : nat * nat) : str :=
  slice s (fst f) (fst f + snd f).

(** The shape of a complete measurement record. *)
Inductive shape : Type := SInt | SFloat | SInts (n : nat).

Definition has_shape (sh : shape) (v : value) : bool :=
  match sh, v with
  | SInt, VInt _ => true
  | SFloat, VFloat _ => true
  | SInts n, VList l => List.length l =? n
  | _, _ => false
  end.

Definition schema : list (string * shape) :=
  [ ("map_inhg", SFloat); ("oil_temp_f", SInt); ("oil_psi", SInt);
    ("fuel_psi", SFloat); ("volts_v", SFloat); ("amps_a", SInt);
    ("rpm", SInt); ("ff_gph", SFloat); ("fuel_remain_g", SFloat);
    ("fuel_l1_g", SFloat); ("fuel_l2_g", SFloat);
    ("egt_f", SInts 6); ("cht_f", SInts 6);
    ("contact1", SInt); ("contact2", SInt) ]%string.

(** Every key of the schema is present, in order, with a value of its shape. *)
Fixpoint complete_for (sc : list (string * shape)) (d : dict) : bool :=
  match sc, d with
  | [], [] => true
  | (k, sh) :: sc', (k', v) :: d' =>
      String.eqb k k' && has_shape sh v && complete_for sc' d'
  | _, _ => false
  end.

Definition complete (d : dict) : bool := complete_for schema d.

(** Every byte value, in increasing order. *)
Definition all_bytes : bytes :=
  map (fun n => match Byte.of_nat n with Some x => x | None => x00 end) (seq 0 256).

(** Width of the field table: every field up to and including the
    product ID (the checksum adds two more characters). *)
Definition layout_width : nat := 117.

(** Did the decoder return a record, and what is under key [k]? *)
Definition decodes (s : str) : bool :=
  match _parse_ems_line s with
  | Ok (Some _) => true
  | _ => false
  end.

Definition decoded_field (s : str) (k : string) : option value :=
  match _parse_ems_line s with
  | Ok (Some d) => get d k
  | _ => None
  end.

(** *** Sample frames *)

(** A full line: 117 characters of fields and the checksum [1D]. *)
Definition sample_line : string :=
  "123456002950-05045052138-022500850321150171000000000000000000000000000013101325129813011290131535035534835234935101011D".

(** The same line cut after contact 2, with [+25] as RPM field. *)
Definition sample_plus : string :=
  "123456002950-05045052138-02+250850321150171000000000000000000000000000013101325129813011290131535035534835234935101".

(** Its payload (everything before the checksum) and the line as it
    arrives, with its terminator. *)
Definition sample_payload : bytes := firstn 117 (bytes_of sample_line).
Definition sample_raw : bytes := bytes_of sample_line ++ [x0d; x0a].

(** What the sample line decodes to. *)
Definition sample_record : dict :=
  [ ("map_inhg", VFloat 29.5);
    ("oil_temp_f", VInt (-5));
    ("oil_psi", VInt 45);
    ("fuel_psi", VFloat 0x1.4cccccccccccdp+2);
    ("volts_v", VFloat 0x1.b99999999999ap+3);
    ("amps_a", VInt (-2));
    ("rpm", VInt 2500);
    ("ff_gph", VFloat 8.5);
    ("fuel_remain_g", VFloat 0x1.00ccccccccccdp+5);
    ("fuel_l1_g", VFloat 15);
    ("fuel_l2_g", VFloat 0x1.119999999999ap+4);
    ("egt_f", VList [1310; 1325; 1298; 1301; 1290; 1315]%Z);
    ("cht_f", VList [350; 355; 348; 352; 349; 351]%Z);
    ("contact1", VInt 0);
    ("contact2", VInt 1) ]%string.

(** The sample line with a letter inside the RPM field. *)
Definition sample_bad : string :=
  "123456002950-05045052138-022X00850321150171000000000000000000000000000013101325129813011290131535035534835234935101011D".

(** The sample line with a minus sign inside the RPM field. *)
Definition sample_inner_minus : string :=
  "123456002950-05045052138-022-50850321150171000000000000000000000000000013101325129813011290131535035534835234935101011D".

(** The sample line without product ID and checksum. *)
Definition sample_cut : str := firstn 115 (str_of sample_line).

(** ** The caller: how [readMessage] handles one line

    The parts of [readMessage] that do not touch the serial port, the
    log file or the host's data classes: the text handed to the
    decoder, the accept/reject decision with its bad-line counter, and
    the list updates of the mapping step. *)
Module readMessage.

(** [c.isspace()] for a code point below 256; this is the set
    [str.strip()] removes. *)
Definition isspace (c : ascii) : bool :=
  let n := ord c in
  ((9 <=? n) && (n <=? 13) || (28 <=? n) && (n <=? 32)
   || (n =? 133) || (n =? 160))%N.

Fixpoint lstrip (s : str) : str :=
  match s with
  | c :: t => if isspace c then lstrip t else s
  | [] => []
  end.

Fixpoint rstrip_space (s : str) : str :=
  match s with
  | [] => []
  | c :: t =>
      match rstrip_space t with
      | [] => if isspace c then [] else [c]
      | t' => c :: t'
      end
  end.

(** [s.strip()]. *)
Definition strip (s : str) : str := rstrip_space (lstrip s).

Definition is_ascii_byte (x : byte) : bool := (Byte.to_N x <? 128)%N.
Definition is_ascii_char (c : ascii) : bool := (ord c <? 128)%N.

(** [b.decode("ascii", errors="ignore")]: bytes above 0x7f are dropped. *)
Definition decode_ascii_ignore (raw : bytes) : str :=
  map ascii_of_byte (filter is_ascii_byte raw).

(** [s.encode("ascii", errors="ignore")]: characters above U+007F are
    dropped. *)
Definition encode_ascii_ignore (line : str) : bytes :=
  map byte_of_ascii (filter is_ascii_char line).

(** Lines 78-83, playback mode: an empty read rewinds the file and
    ends the call ([None]); otherwise the text line is encoded. *)
Definition playback_raw (line : str) : option bytes :=
  match line with
  | [] => None
  | _ :: _ => Some (encode_ascii_ignore line)
  end.

(** Line 96: [raw.decode("ascii", errors="ignore").strip()]. *)
Definition line_text (raw : bytes) : str := strip (decode_ascii_ignore raw).

(** [bool(parsed)] where [parsed] is [None] or a dict. *)
Definition truthy (parsed : option dict) : bool :=
  match parsed with
  | Some (_ :: _) => true
  | _ => false
  end.

(** Lines 90-102: the checksum test, the decoding, and the counter
    [msg_bad] of rejected lines.  The result is the new counter and, for
    a line that goes on to the mapping step, its text and parsed dict. *)
Definition accept_line (msg_bad : Z) (raw : bytes)
  : result (Z * option (str * dict)) :=
  bind (_ems_checksum_ok raw) (fun ok =>
  if negb ok then Ok ((msg_bad + 1)%Z, None) else
  let s := line_text raw in
  bind (_parse_ems_line s) (fun parsed =>
  if negb (truthy parsed) then Ok ((msg_bad + 1)%Z, None) else
  match parsed with
  | Some d => Ok (msg_bad, Some (s, d))
  | None => Ok ((msg_bad + 1)%Z, None)
  end)).

(** [d.get(k, default)]. *)
Definition get_default (d : dict) (k : string) (default : value) : value :=
  match get d k with
  | Some v => v
  | None => default
  end.

(** [l[i] = v]; [None] stands for the IndexError of an index out of range. *)
Fixpoint setitem {A} (l : list A) (i : nat) (v : A) : option (list A) :=
  match l, i with
  | [], _ => None
  | _ :: t, O => Some (v :: t)
  | x :: t, S i' => option_map (cons x) (setitem t i' v)
  end.

(** Lines 125-127 and 129-131:
    [for i, v in enumerate(src): if i < len(dst): dst[i] = v],
    with the enumeration counter at [i]. *)
Fixpoint copy_readings {A} (i : nat) (src dst : list A) : option (list A) :=
  match src with
  | [] => Some dst
  | v :: src' =>
      if i <? List.length dst then
        match setitem dst i v with
        | Some dst' => copy_readings (S i) src' dst'
        | None => None
        end
      else copy_readings (S i) src' dst
  end.

(** [bool(v)] and [len(v)] of a value; [len] of a number is a TypeError
    ([None]). *)
Definition value_truthy (v : value) : bool :=
  match v with
  | VInt z => negb (z =? 0)%Z
  | VFloat f => negb (PrimFloat.eqb f 0)
  | VList l => negb (Nat.eqb (List.length l) 0)
  end.

Definition value_len (v : value) : option Z :=
  match v with
  | VList l => Some (Z.of_nat (List.length l))
  | _ => None
  end.

(** Lines 121-122 and 133: the value stored in [NumberOfCylinders],
    [max(len(egt), len(cht)) if (egt or cht) else current]. *)
Definition number_of_cylinders (parsed : dict) (current : Z) : option Z :=
  let egt := get_default parsed "egt_f" (VList []) in
  let cht := get_default parsed "cht_f" (VList []) in
  if value_truthy egt || value_truthy cht then
    match value_len egt, value_len cht with
    | Some a, Some c => Some (Z.max a c)
    | _, _ => None
    end
  else Some current.

(** Lines 141-142: [while len(l) < 2: l.append(0.0)], run for at most
    [fuel] iterations; [None] when the loop has not finished by then. *)
Fixpoint pad_levels (fuel : nat) (l : list value) : option (list value) :=
  if List.length l <? 2 then
    match fuel with
    | O => None
    | S fuel' => pad_levels fuel' (l ++ [VFloat 0])
    end
  else Some l.

(** Lines 141-144: pad [FuelLevels] to two slots, then store the two
    tank levels [a] and [b] (the rounded values) at index 0 and 1. *)
Definition update_fuel_levels (fuel : nat) (l : list value) (a b : float)
  : option (list value) :=
  match pad_levels fuel l with
  | Some l0 =>
      match setitem l0 0 (VFloat a) with
      | Some l1 => setitem l1 1 (VFloat b)
      | None => None
      end
  | None => None
  end.

End readMessage.

Import readMessage.

(** ** More notions for the statements *)

(** The number written by a run of decimal digits. *)
Definition decimal (l : str) : Z :=
  fold_left (fun acc c => (acc * 10 + (Z.of_N (ord c) - 48))%Z) l 0%Z.

(** What a line with digits in every numeric field decodes to. *)
Definition digits_record (s : str) : dict :=
  record_of (map (fun f => decimal (slice s (fst f) (fst f + snd f)))
                 numeric_fields).

(** Bounds of the integers in a decoded record, both ends included: a
    field of 3 characters holds -99..999, one of 4 characters
    -999..9999, one of 1 character 0..9, and the RPM is ten times a
    3-character field. *)
Definition within (lo hi : Z) (v : value) : Prop :=
  match v with
  | VInt z => (lo <= z <= hi)%Z
  | VList l => Forall (fun z => (lo <= z <= hi)%Z) l
  | VFloat _ => False
  end.

Definition int_ranges : list (string * (Z * Z)) :=
  [ ("oil_temp_f", (-99, 999)); ("oil_psi", (-99, 999));
    ("amps_a", (-99, 999)); ("rpm", (-990, 9990));
    ("egt_f", (-999, 9999)); ("cht_f", (-99, 999));
    ("contact1", (0, 9)); ("contact2", (0, 9)) ]%Z%string.

Definition is_digit_byte (x : byte) : bool := in_range "0" "9" x.

(** A payload of 117 characters with digits in every numeric field
    and letters in the opaque ones; its checksum value is 127. *)
Definition sample_digits : string :=
  "1234560029501850450521380122500850321150171ABCDEFGHABCDEFGHABCDEFGHWXYZ1310132512981301129013153503553483523493510101".

(** The text of a byte string that holds ASCII only. *)
Definition text_of (raw : bytes) : str := map ascii_of_byte raw.

(** *** Proof automation *)

(** Case on the next field read by the decoder body. *)
Ltac step_field :=
  match goal with
  | |- context [int_ (slice ?s ?i ?j) 10] =>
      destruct (int_ (slice s i j) 10); [ cbn [bind] | reflexivity ]
  end.

(** ** Properties of the runtime model *)

Example int_examples :
  map (fun x => int_ (str_of x) 10) ["250"; "-05"; "+5"; " 5"; "1_2"; "_12"; "12_"; ""; "1__2"; "+ 5"; "-0"; "0x1"]%string
  = [Ok 250; Ok (-5); Ok 5; Ok 5; Ok 12; Raise ValueError; Raise ValueError; Raise ValueError;
     Raise ValueError; Raise ValueError; Ok 0; Raise ValueError]%Z.
Proof. vm_compute. reflexivity. Qed.

Example int16_examples :
  map (fun x => int_ (str_of x) 16) ["+5"; "-5"; " 5"; "5 "; "0x"; "0X"; "x0"; "a_"; "_a"; "aF"; "0x1"; "0x_1"; "0x__1"; "0_x1"; "-0x1"; " 0xf "; "0b"; "g1"; "--"; "+-1"]%string
  = [Ok 5; Ok (-5); Ok 5; Ok 5; Raise ValueError; Raise ValueError; Raise ValueError; Raise ValueError; Raise ValueError;
     Ok 175; Ok 1; Ok 1; Raise ValueError; Raise ValueError; Ok (-1); Ok 15; Ok 11; Raise ValueError; Raise ValueError; Raise ValueError]%Z.
Proof. vm_compute. reflexivity. Qed.

(** ** The validator *)

Lemma try_except_returns (A : Type) (body : result A) (h : A) :
  exists a, try_except_Exception body h = Ok a.
Proof. destruct body as [a|[]]; simpl; eauto. Qed.

Lemma rstrip_length chars l : List.length (rstrip chars l) <= List.length l.
Proof.
  induction l as [|x t IH]; simpl; [lia|].
  destruct (rstrip chars t); [destruct (chars x)|]; simpl in *; lia.
Qed.

Lemma rstrip_app chars a t :
  rstrip chars (a ++ t) =
  match rstrip chars t with
  | [] => rstrip chars a
  | _ :: _ => a ++ rstrip chars t
  end.
Proof.
  induction a as [|x a IH]; simpl.
  - destruct (rstrip chars t); reflexivity.
  - rewrite IH. destruct (rstrip chars t) as [|y r]; [reflexivity|].
    destruct a; reflexivity.
Qed.

Lemma rstrip_suffix chars t : forallb chars t = true -> rstrip chars t = [].
Proof.
  induction t as [|x t IH]; simpl; [reflexivity|].
  intros H. apply andb_prop in H as [Hx Ht]. now rewrite (IH Ht), Hx.
Qed.

(** The method without its exception plumbing. *)
Lemma checksum_ok_eq raw :
  _ems_checksum_ok raw =
  Ok (let body := rstrip CRLF raw in
      if List.length body <? 4 then false
      else match checksum_field body with
           | Ok chk_val =>
               (Z.land (sum (slice_but_last 2 body) + chk_val) 255 =? 0)%Z
           | Raise _ => false
           end).
Proof.
  unfold _ems_checksum_ok, checksum_field. cbv zeta.
  destruct (List.length _ <? 4); [reflexivity|].
  destruct (decode_ascii _) as [t|[]]; simpl; try reflexivity.
  destruct (int_ t 16) as [v|[]]; reflexivity.
Qed.

Lemma land_255 z : Z.land z 255 = (z mod 256)%Z.
Proof. change 255%Z with (Z.ones 8). now rewrite Z.land_ones by lia. Qed.

Lemma sum_app a c : sum (a ++ c) = (sum a + sum c)%Z.
Proof. induction a as [|x a IH]; simpl; [reflexivity|]. rewrite IH. lia. Qed.

Lemma sum_zeros k : sum (repeat x00 k) = 0%Z.
Proof.
  induction k as [|k IH]; [reflexivity|].
  change (sum (repeat x00 (S k))) with (0 + sum (repeat x00 k))%Z.
  rewrite IH. reflexivity.
Qed.

Lemma byte_value_range (x : byte) : (0 <= Z.of_N (Byte.to_N x) < 256)%Z.
Proof. pose proof (Byte.to_N_bounded x). lia. Qed.

Lemma byte_value_inj (x y : byte) : Byte.to_N x = Byte.to_N y -> x = y.
Proof.
  intros H. pose proof (Byte.of_to_N x) as Hx. rewrite H, Byte.of_to_N in Hx.
  congruence.
Qed.

Lemma in_all_bytes (x : byte) : In x all_bytes.
Proof.
  unfold all_bytes. apply in_map_iff. exists (Byte.to_nat x). split.
  - now rewrite Byte.of_to_nat.
  - apply in_seq. pose proof (Byte.to_nat_bounded x). lia.
Qed.

Lemma slice_last_app A (p l : list A) :
  List.length l = 2 -> slice_last 2 (p ++ l) = l.
Proof.
  intros Hl. unfold slice_last. rewrite length_app, Hl.
  replace (List.length p + 2 - 2) with (List.length p + 0) by lia.
  now rewrite skipn_app, skipn_all2, Nat.add_comm, Nat.add_sub by lia.
Qed.

Lemma slice_but_last_app A (p l : list A) :
  List.length l = 2 -> slice_but_last 2 (p ++ l) = p.
Proof.
  intros Hl. unfold slice_but_last. rewrite length_app, Hl.
  replace (List.length p + 2 - 2) with (List.length p) by lia.
  rewrite firstn_app, firstn_all, Nat.sub_diag. simpl. apply app_nil_r.
Qed.

(** Every rendering of a byte value reads back as that value. *)
Lemma hex2_reads_back (upper : bool) (c : Z) :
  (0 <= c < 256)%Z ->
  checksum_field (hex2 upper c) = Ok c /\
  rstrip CRLF (hex2 upper c) = hex2 upper c.
Proof.
  intros Hc.
  assert (Hall : forallb (fun n =>
            forallb (fun up =>
              match checksum_field (hex2 up (Z.of_nat n)) with
              | Ok v => (v =? Z.of_nat n)%Z
              | Raise _ => false
              end
              && match rstrip CRLF (hex2 up (Z.of_nat n)) with
                 | [h; l] => match hex2 up (Z.of_nat n) with
                             | [h'; l'] => Byte.eqb h h' && Byte.eqb l l'
                             | _ => false
                             end
                 | _ => false
                 end) [true; false]) (seq 0 256) = true)
    by (vm_compute; reflexivity).
  rewrite forallb_forall in Hall.
  specialize (Hall (Z.to_nat c)). rewrite Z2Nat.id in Hall by lia.
  assert (Hin : In (Z.to_nat c) (seq 0 256)) by (apply in_seq; lia).
  specialize (Hall Hin). rewrite forallb_forall in Hall.
  assert (Hup : In upper [true; false]) by (destruct upper; simpl; auto).
  specialize (Hall upper Hup). apply andb_prop in Hall as [Hv Hr].
  split.
  - destruct (checksum_field _) as [v|]; [|discriminate].
    apply Z.eqb_eq in Hv. now subst.
  - destruct (rstrip CRLF _) as [|h [|l [|]]]; try discriminate.
    destruct (hex2 upper c) as [|h' [|l' [|]]]; try discriminate.
    apply andb_prop in Hr as [H1 H2].
    apply Byte.byte_dec_bl in H1, H2. now subst.
Qed.

(** The two-character fields [int(_, 16)] accepts after ASCII decoding
    are exactly those of [is_hex_field]. *)
Lemma checksum_field_accepts (h l : byte) :
  is_hex_field [h; l] =
  match checksum_field [h; l] with
  | Ok _ => true
  | Raise _ => false
  end.
Proof.
  assert (Hall : forallb (fun x =>
            forallb (fun y =>
              Bool.eqb (is_hex_field [x; y])
                       match checksum_field [x; y] with
                       | Ok _ => true
                       | Raise _ => false
                       end) all_bytes) all_bytes = true)
    by (vm_compute; reflexivity).
  rewrite forallb_forall in Hall. specialize (Hall h (in_all_bytes h)).
  rewrite forallb_forall in Hall. specialize (Hall l (in_all_bytes l)).
  now apply Bool.eqb_prop in Hall.
Qed.

Lemma length_two A (l : list A) :
  List.length l = 2 -> exists x y, l = [x; y].
Proof. destruct l as [|x [|y [|]]]; try discriminate. eauto. Qed.

Lemma slice_last_length A (l : list A) :
  2 <= List.length l -> List.length (slice_last 2 l) = 2.
Proof. intros H. unfold slice_last. rewrite length_skipn. lia. Qed.

(** A position inside the payload survives [rstrip], with at least the
    two checksum characters after it. *)
Lemma payload_position pre x rest :
  List.length pre + 2 < List.length (rstrip CRLF (pre ++ x :: rest)) ->
  exists r, 2 <= List.length r /\
            forall z, rstrip CRLF (pre ++ z :: rest) = pre ++ z :: r.
Proof.
  rewrite rstrip_app. simpl.
  destruct (rstrip CRLF rest) as [|a r] eqn:E.
  - destruct (CRLF x).
    + intros H. pose proof (rstrip_length CRLF pre). lia.
    + rewrite length_app. simpl. lia.
  - rewrite length_app. simpl. intros H. exists (a :: r). split.
    + simpl. lia.
    + intros z. rewrite rstrip_app. simpl. now rewrite E.
Qed.

Lemma body_parts (pre r : bytes) (z : byte) :
  2 <= List.length r ->
  slice_last 2 (pre ++ z :: r) = slice_last 2 r /\
  slice_but_last 2 (pre ++ z :: r) = pre ++ z :: slice_but_last 2 r.
Proof.
  intros Hr. unfold slice_last, slice_but_last.
  rewrite length_app. simpl List.length.
  replace (List.length pre + S (List.length r) - 2)
    with (List.length pre + S (List.length r - 2)) by lia.
  split.
  - rewrite skipn_app, skipn_all2 by lia.
    replace (List.length pre + S (List.length r - 2) - List.length pre)
      with (S (List.length r - 2)) by lia.
    reflexivity.
  - rewrite firstn_app, firstn_all2 by lia.
    replace (List.length pre + S (List.length r - 2) - List.length pre)
      with (S (List.length r - 2)) by lia.
    reflexivity.
Qed.

(** ** The decoder *)

(** The body reads exactly the fields of the table, in order, and
    leaves the offset at 117. *)
Lemma parse_body_layout (s : str) :
  parse_body s 0 =
  bind (mapM (field s) numeric_fields) (fun vs => Ok (record_of vs, 117)).
Proof.
  cbv [parse_body int_take take mbind lift ret comprehension Nat.add].
  cbv [numeric_fields mapM field fst snd Nat.add].
  do 29 step_field.
  reflexivity.
Qed.

Lemma parse_line_layout (s : str) :
  _parse_ems_line s =
  Ok match mapM (field s) numeric_fields with
     | Ok vs => Some (record_of vs)
     | Raise _ => None
     end.
Proof.
  unfold _parse_ems_line. rewrite parse_body_layout.
  destruct (mapM (field s) numeric_fields) as [vs|[]]; reflexivity.
Qed.

Section MapM.

Context {A B : Type} (f : A -> result B).

Lemma mapM_ok_length l vs : mapM f l = Ok vs -> List.length vs = List.length l.
Proof.
  revert vs. induction l as [|x l IH]; simpl; intros vs H.
  - now inversion H.
  - destruct (f x); [|discriminate]. simpl in H.
    destruct (mapM f l); [|discriminate]. inversion H; subst.
    simpl. now rewrite (IH _ eq_refl).
Qed.

Lemma mapM_ok_nth l vs k x d :
  mapM f l = Ok vs -> nth_error l k = Some x -> f x = Ok (nth k vs d).
Proof.
  revert vs k. induction l as [|y l IH]; simpl; intros vs k H Hk.
  - destruct k; discriminate.
  - destruct (f y) as [v|] eqn:Ey; [|discriminate]. simpl in H.
    destruct (mapM f l) as [vs'|]; [|discriminate]. inversion H; subst.
    destruct k as [|k]; simpl in *.
    + now inversion Hk; subst.
    + now apply IH.
Qed.

Lemma mapM_ok_in l vs x :
  mapM f l = Ok vs -> In x l -> exists v, f x = Ok v.
Proof.
  revert vs. induction l as [|y l IH]; simpl; intros vs H Hin; [easy|].
  destruct (f y) as [v|] eqn:Ey; [|discriminate]. simpl in H.
  destruct (mapM f l) as [vs'|]; [|discriminate].
  destruct Hin as [->|Hin]; eauto.
Qed.

Lemma mapM_ext_in (g : A -> result B) l :
  (forall x, In x l -> f x = g x) -> mapM f l = mapM g l.
Proof.
  induction l as [|y l IH]; simpl; intros H; [reflexivity|].
  rewrite (H y) by auto. rewrite IH by auto. reflexivity.
Qed.

End MapM.

(** *** Slices *)

Lemma slice_firstn A (s : list A) n o j :
  j <= n -> slice (firstn n s) o j = slice s o j.
Proof.
  intros H. unfold slice.
  rewrite skipn_firstn_comm, firstn_firstn. f_equal. lia.
Qed.

Lemma slice_beyond A (s : list A) o j :
  List.length s <= o -> slice s o j = [].
Proof. intros H. unfold slice. rewrite skipn_all2 by assumption. apply firstn_nil. Qed.

Lemma slice_in A (s : list A) o j i c :
  nth_error s i = Some c -> o <= i < j -> In c (slice s o j).
Proof.
  intros Hc Hi. unfold slice. apply nth_error_In with (n := i - o).
  rewrite nth_error_firstn.
  destruct (Nat.ltb_spec (i - o) (j - o)); [|lia].
  rewrite nth_error_skipn. now replace (o + (i - o)) with i by lia.
Qed.

Lemma slice_length A (s : list A) o j :
  j <= List.length s -> List.length (slice s o j) = j - o.
Proof. intros H. unfold slice. rewrite length_firstn, length_skipn. lia. Qed.

(** *** [int(text, 10)] *)

Lemma int_empty : int_ [] 10 = Raise ValueError.
Proof. reflexivity. Qed.

Lemma skip_prefix_10 l : skip_prefix 10 l = l.
Proof.
  destruct l as [|z [|x t]]; cbn [skip_prefix]; try reflexivity.
  change (10 =? 16)%N with false. now rewrite andb_false_r.
Qed.

Lemma digit_below_10 c :
  (digit_value c <? 10)%N = true -> is_decimal_digit c = true.
Proof.
  unfold digit_value, is_decimal_digit.
  destruct ((48 <=? ord c) && (ord c <=? 57))%N; [reflexivity|].
  destruct ((97 <=? ord c) && (ord c <=? 122))%N eqn:E1.
  { apply andb_prop in E1 as [H1 H2]. apply N.leb_le in H1. intros H.
    apply N.ltb_lt in H. lia. }
  destruct ((65 <=? ord c) && (ord c <=? 90))%N eqn:E2.
  { apply andb_prop in E2 as [H1 H2]. apply N.leb_le in H1. intros H.
    apply N.ltb_lt in H. lia. }
  discriminate.
Qed.

Lemma tolerated_space c : is_space c = true -> tolerated c.
Proof. unfold tolerated, int_tolerates. intros ->. now rewrite !orb_true_r. Qed.

Lemma skip_space_tolerated l : Forall tolerated (skip_space l) -> Forall tolerated l.
Proof.
  induction l as [|c l IH]; cbn [skip_space]; [auto|].
  destruct (is_space c) eqn:E; [|auto].
  intros H. constructor; [now apply tolerated_space | auto].
Qed.

Lemma skip_space_all l : skip_space l = [] -> Forall tolerated l.
Proof.
  induction l as [|c l IH]; cbn [skip_space]; [auto|].
  destruct (is_space c) eqn:E; [|discriminate].
  intros H. constructor; [now apply tolerated_space | auto].
Qed.

Lemma skip_sign_tolerated l : Forall tolerated (snd (skip_sign l)) -> Forall tolerated l.
Proof.
  destruct l as [|c l]; cbn [skip_sign snd]; [auto|].
  destruct (is_char "+" c) eqn:E1; cbn [snd].
  { intros H. constructor; [|assumption].
    unfold tolerated, int_tolerates. rewrite E1. now rewrite !orb_true_r. }
  destruct (is_char "-" c) eqn:E2; cbn [snd]; [|auto].
  intros H. constructor; [|assumption].
  unfold tolerated, int_tolerates. rewrite E2. now rewrite !orb_true_r.
Qed.

Lemma scan_digits_tolerated l prev acc n v n' rest :
  scan_digits 10 l prev acc n = Some (v, n', rest) ->
  Forall tolerated rest -> Forall tolerated l.
Proof.
  revert prev acc n.
  induction l as [|c l IH]; cbn [scan_digits]; intros prev acc n H Hr.
  - constructor.
  - destruct (is_char "_" c) eqn:E1.
    { destruct prev; [discriminate|]. constructor; [|eauto].
      unfold tolerated, int_tolerates. rewrite E1. now rewrite !orb_true_r. }
    destruct (digit_value c <? 10)%N eqn:E2.
    { constructor; [|eauto]. unfold tolerated, int_tolerates.
      now rewrite (digit_below_10 c E2). }
    destruct prev; [discriminate|]. inversion H; subst. assumption.
Qed.

(** A slice the conversion accepts holds only digits, signs,
    underscores and white space. *)
Lemma int_ok_tolerated l v : int_ l 10 = Ok v -> Forall tolerated l.
Proof.
  unfold int_. intros H. apply skip_space_tolerated, skip_sign_tolerated.
  destruct (skip_sign (skip_space l)) as [sg l1]. simpl.
  rewrite skip_prefix_10 in H.
  destruct l1 as [|c t]; [discriminate|].
  destruct (is_char "_" c); [discriminate|].
  destruct (scan_digits 10 (c :: t) false 0 0) as [[[v' [|n']] rest]|] eqn:E;
    try discriminate.
  destruct (skip_space rest) eqn:Er; [|discriminate].
  apply (scan_digits_tolerated _ _ _ _ _ _ _ E). now apply skip_space_all.
Qed.

(** *** The field table *)

Lemma numeric_pos_field i :
  numeric_pos i = true ->
  exists f, In f numeric_fields /\ fst f <= i < fst f + snd f.
Proof.
  unfold numeric_pos. intros H. apply existsb_exists in H as [f [Hf Hc]].
  exists f. split; [assumption|]. unfold covers in Hc.
  apply andb_prop in Hc as [H1 H2].
  apply Nat.leb_le in H1. apply Nat.ltb_lt in H2. lia.
Qed.

Lemma numeric_fields_end f : In f numeric_fields -> fst f + snd f <= 115.
Proof.
  assert (H : forallb (fun f => fst f + snd f <=? 115) numeric_fields = true)
    by reflexivity.
  rewrite forallb_forall in H. intros Hf. now apply Nat.leb_le, H.
Qed.

(** A line whose decoding succeeds has all 115 decoded characters. *)
Lemma decoded_length s vs :
  mapM (field s) numeric_fields = Ok vs -> 115 <= List.length s.
Proof.
  intros H. destruct (Nat.le_gt_cases 115 (List.length s)) as [|Hlt]; [assumption|].
  assert (Hin : In (114, 1) numeric_fields) by (simpl; tauto).
  destruct (mapM_ok_in _ _ _ _ H Hin) as [v Hv].
  unfold field in Hv. simpl in Hv.
  rewrite slice_beyond in Hv by lia. discriminate.
Qed.

(** ** Frame validator: the claims *)

(** C1, as stated, fails on a payload of fewer than two bytes: the empty
    payload with checksum value 0 satisfies the modular-sum condition,
    yet its rendering ["00"] is a two-byte body and is rejected by the
    length guard. *)
Lemma checksum_rejects_rendered_empty_payload :
  (0 <= 0 < 256)%Z /\ ((sum [] + 0) mod 256 = 0)%Z /\
  _ems_checksum_ok ([] ++ hex2 true 0) = Ok false.
Proof. repeat split; try lia; reflexivity. Qed.

(** C1, amended: for every payload [p] of at least two bytes and every
    checksum value [c] in 0..255 with [(sum p + c) mod 256 = 0], the
    validator returns true on [p] followed by the two-character
    hexadecimal rendering of [c] (upper or lower case), with or
    without trailing CR/LF characters. *)
Theorem checksum_accepts_rendered (upper : bool) (p tail : bytes) (c : Z) :
  2 <= List.length p ->
  (0 <= c < 256)%Z ->
  ((sum p + c) mod 256 = 0)%Z ->
  forallb CRLF tail = true ->
  _ems_checksum_ok (p ++ hex2 upper c ++ tail) = Ok true.
Proof.
  intros Hp Hc Hsum Htail.
  destruct (hex2_reads_back upper c Hc) as [Hv Hr].
  assert (Hlen : List.length (hex2 upper c) = 2) by reflexivity.
  assert (Hbody : rstrip CRLF (p ++ hex2 upper c ++ tail) = p ++ hex2 upper c).
  { rewrite app_assoc, rstrip_app, (rstrip_suffix _ _ Htail).
    rewrite rstrip_app, Hr.
    destruct (hex2 upper c); [discriminate | reflexivity]. }
  rewrite checksum_ok_eq, Hbody. cbv zeta.
  rewrite length_app, Hlen.
  destruct (Nat.ltb_spec (List.length p + 2) 4); [lia|].
  unfold checksum_field in *.
  change (slice_last 2 (hex2 upper c)) with (hex2 upper c) in Hv.
  rewrite slice_last_app, slice_but_last_app by assumption.
  rewrite Hv, land_255, Hsum. reflexivity.
Qed.

Lemma checksum_accepts_rendered_witness :
  2 <= List.length sample_payload /\
  (0 <= 29 < 256)%Z /\
  ((sum sample_payload + 29) mod 256 = 0)%Z /\
  forallb CRLF [x0d; x0a] = true /\
  _ems_checksum_ok (sample_payload ++ hex2 true 29 ++ [x0d; x0a]) = Ok true.
Proof.
  assert (H1 : 2 <= List.length sample_payload) by (vm_compute; lia).
  assert (H2 : (0 <= 29 < 256)%Z) by lia.
  assert (H3 : ((sum sample_payload + 29) mod 256 = 0)%Z) by reflexivity.
  assert (H4 : forallb CRLF [x0d; x0a] = true) by reflexivity.
  exact (conj H1 (conj H2 (conj H3 (conj H4
           (checksum_accepts_rendered true sample_payload [x0d; x0a] 29 H1 H2 H3 H4))))).
Defined.

(** C3: on a frame the validator accepts, replacing one payload
    character (a byte at an index below the body length minus two) by a
    different one, everything else unchanged, makes the validator
    return false. *)
Theorem checksum_detects_single_change (pre rest : bytes) (x y : byte) :
  _ems_checksum_ok (pre ++ x :: rest) = Ok true ->
  List.length pre + 2 < List.length (rstrip CRLF (pre ++ x :: rest)) ->
  x <> y ->
  _ems_checksum_ok (pre ++ y :: rest) = Ok false.
Proof.
  intros Hok Hpos Hxy.
  destruct (payload_position _ _ _ Hpos) as [r [Hr Hbody]].
  rewrite checksum_ok_eq, Hbody in Hok. rewrite checksum_ok_eq, Hbody.
  cbv zeta in *. injection Hok as Hx. f_equal.
  rewrite length_app in *. cbn [List.length] in *.
  destruct (List.length pre + S (List.length r) <? 4); [discriminate|].
  unfold checksum_field in *.
  destruct (body_parts pre r y Hr) as [-> ->].
  destruct (body_parts pre r x Hr) as [E1 E2]. rewrite E1, E2 in Hx.
  destruct (bind _ _) as [v|]; [|reflexivity].
  apply Z.eqb_eq in Hx. apply Z.eqb_neq. intros Hy.
  rewrite land_255 in Hx, Hy. rewrite sum_app in Hx, Hy. cbn [sum fold_right] in Hx, Hy.
  fold (sum (slice_but_last 2 r)) in Hx, Hy.
  apply Z.mod_divide in Hx, Hy; try lia.
  destruct Hx as [q1 Hx], Hy as [q2 Hy].
  pose proof (byte_value_range x). pose proof (byte_value_range y).
  apply Hxy, byte_value_inj. lia.
Qed.

Lemma checksum_detects_single_change_witness :
  _ems_checksum_ok (firstn 27 sample_raw ++ "2"%byte :: skipn 28 sample_raw) = Ok true /\
  27 + 2 < List.length (rstrip CRLF (firstn 27 sample_raw ++ "2"%byte :: skipn 28 sample_raw)) /\
  "2"%byte <> "3"%byte /\
  _ems_checksum_ok (firstn 27 sample_raw ++ "3"%byte :: skipn 28 sample_raw) = Ok false.
Proof.
  assert (H1 : _ems_checksum_ok (firstn 27 sample_raw ++ "2"%byte :: skipn 28 sample_raw) = Ok true)
    by reflexivity.
  assert (H2 : List.length (firstn 27 sample_raw) + 2 <
               List.length (rstrip CRLF (firstn 27 sample_raw ++ "2"%byte :: skipn 28 sample_raw)))
    by (vm_compute; lia).
  assert (H3 : "2"%byte <> "3"%byte) by discriminate.
  exact (conj H1 (conj H2 (conj H3 (checksum_detects_single_change _ _ _ _ H1 H2 H3)))).
Defined.

(** C4, as stated, fails in its last part: the body ["~~+4"] ends in
    ["+4"], which is not a pair of hexadecimal digits, yet the base-16
    conversion reads it as 4 and the frame is accepted
    (126 + 126 + 4 = 256). *)
Lemma checksum_accepts_signed_field :
  is_hex_pair (slice_last 2 (rstrip CRLF (bytes_of "~~+4"))) = false /\
  _ems_checksum_ok (bytes_of "~~+4") = Ok true.
Proof. split; reflexivity. Qed.

(** C4, amended: the validator never raises and returns a boolean for
    every input; a body (after stripping CR/LF) shorter than 4 bytes is
    rejected with false; and a body whose last two characters are
    neither two hexadecimal digits, nor one hexadecimal digit preceded
    by a sign or an ASCII white space, nor one hexadecimal digit
    followed by an ASCII white space, is rejected with false. *)
Theorem checksum_total_and_rejects (raw : bytes) :
  (exists r, _ems_checksum_ok raw = Ok r) /\
  (List.length (rstrip CRLF raw) < 4 -> _ems_checksum_ok raw = Ok false) /\
  (is_hex_field (slice_last 2 (rstrip CRLF raw)) = false ->
   _ems_checksum_ok raw = Ok false).
Proof.
  split; [apply try_except_returns|].
  rewrite checksum_ok_eq. cbv zeta. split.
  - intros H. apply Nat.ltb_lt in H. now rewrite H.
  - intros H. f_equal.
    destruct (Nat.ltb_spec (List.length (rstrip CRLF raw)) 4) as [|Hlen];
      [reflexivity|].
    destruct (length_two _ (slice_last 2 (rstrip CRLF raw))) as [h [l E]].
    { apply slice_last_length. lia. }
    assert (Hf : checksum_field (rstrip CRLF raw) = checksum_field [h; l]).
    { unfold checksum_field. rewrite E. reflexivity. }
    rewrite Hf. rewrite E, checksum_field_accepts in H.
    destruct (checksum_field [h; l]); [discriminate | reflexivity].
Qed.

Lemma checksum_total_and_rejects_witness :
  (List.length (rstrip CRLF (bytes_of "1D")) < 4 /\
   _ems_checksum_ok (bytes_of "1D") = Ok false) /\
  (is_hex_field (slice_last 2 (rstrip CRLF (bytes_of "12345G0"))) = false /\
   _ems_checksum_ok (bytes_of "12345G0") = Ok false).
Proof.
  assert (H1 : List.length (rstrip CRLF (bytes_of "1D")) < 4) by (vm_compute; lia).
  assert (H2 : is_hex_field (slice_last 2 (rstrip CRLF (bytes_of "12345G0"))) = false)
    by reflexivity.
  exact (conj (conj H1 (proj1 (proj2 (checksum_total_and_rejects (bytes_of "1D"))) H1))
              (conj H2 (proj2 (proj2 (checksum_total_and_rejects (bytes_of "12345G0"))) H2))).
Defined.

(** C10: the validator returns true exactly when the CR/LF-stripped
    body has at least 4 bytes, its last two characters are read by the
    base-16 conversion as some value [v], and the sum of the payload
    bytes plus [v] is 0 modulo 256; the body length is not otherwise
    constrained, and for every length from 4 up there is an accepted
    body of that length. *)
Theorem checksum_ok_iff_any_length :
  (forall raw,
     _ems_checksum_ok raw = Ok true <->
     4 <= List.length (rstrip CRLF raw) /\
     exists v, checksum_field (rstrip CRLF raw) = Ok v /\
               ((sum (slice_but_last 2 (rstrip CRLF raw)) + v) mod 256 = 0)%Z) /\
  (forall n, 4 <= n ->
     exists raw, List.length (rstrip CRLF raw) = n /\
                 _ems_checksum_ok raw = Ok true).
Proof.
  split.
  - intros raw. rewrite checksum_ok_eq. cbv zeta.
    destruct (Nat.ltb_spec (List.length (rstrip CRLF raw)) 4) as [Hlt|Hge].
    + split; [discriminate | intros [H _]; lia].
    + destruct (checksum_field (rstrip CRLF raw)) as [v|e].
      * rewrite land_255. split.
        -- intros H. injection H as H. apply Z.eqb_eq in H. eauto.
        -- intros [_ [v' [E H]]]. injection E as <-.
           f_equal. now apply Z.eqb_eq.
      * split; [discriminate | intros [_ [v [E _]]]; discriminate].
  - intros n Hn. exists (repeat x00 (n - 2) ++ bytes_of "00").
    assert (Hbody : rstrip CRLF (repeat x00 (n - 2) ++ bytes_of "00")
                    = repeat x00 (n - 2) ++ bytes_of "00")
      by (rewrite rstrip_app; reflexivity).
    pose proof (sum_zeros (n - 2)) as Hsum.
    rewrite checksum_ok_eq, Hbody. cbv zeta.
    rewrite length_app, repeat_length. split; [simpl; lia|].
    destruct (Nat.ltb_spec (n - 2 + List.length (bytes_of "00")) 4) as [Hlt|_];
      [simpl in Hlt; lia|].
    unfold checksum_field.
    rewrite slice_last_app, slice_but_last_app by reflexivity.
    rewrite Hsum. reflexivity.
Qed.

Lemma checksum_ok_iff_any_length_witness :
  (4 <= List.length (rstrip CRLF sample_raw) /\
   exists v, checksum_field (rstrip CRLF sample_raw) = Ok v /\
             ((sum (slice_but_last 2 (rstrip CRLF sample_raw)) + v) mod 256 = 0)%Z) /\
  _ems_checksum_ok sample_raw = Ok true /\
  4 <= 7 /\
  exists raw, List.length (rstrip CRLF raw) = 7 /\ _ems_checksum_ok raw = Ok true.
Proof.
  assert (H1 : 4 <= List.length (rstrip CRLF sample_raw) /\
               exists v, checksum_field (rstrip CRLF sample_raw) = Ok v /\
                 ((sum (slice_but_last 2 (rstrip CRLF sample_raw)) + v) mod 256 = 0)%Z).
  { split; [vm_compute; lia|]. exists 29%Z. split; reflexivity. }
  assert (H2 : 4 <= 7) by lia.
  exact (conj H1 (conj (proj2 (proj1 checksum_ok_iff_any_length sample_raw) H1)
                       (conj H2 (proj2 checksum_ok_iff_any_length 7 H2)))).
Defined.

(** ** Frame decoder: the claims *)

Example sample_line_decodes :
  _parse_ems_line (str_of sample_line) = Ok (Some sample_record).
Proof. vm_compute. reflexivity. Qed.

Example manifold_pressure_2950 : truediv 2950 100 = 29.5%float.
Proof. reflexivity. Qed.

(** C2: the decoder is all-or-nothing.  For every input it returns
    (never raises) either [None], or a dict holding every key of the
    record with a value of its kind: floats, integers, and two lists of
    six integers. *)
Theorem parse_all_or_nothing (s : str) :
  _parse_ems_line s = Ok None \/
  exists d, _parse_ems_line s = Ok (Some d) /\ complete d = true.
Proof.
  rewrite parse_line_layout.
  destruct (mapM (field s) numeric_fields) as [vs|e]; [right | now left].
  exists (record_of vs). split; reflexivity.
Qed.

(** C6, as stated, fails: the sample line cut after contact 2 is
    shorter than the field layout (115 < 117 characters) and is decoded
    to a record. *)
Lemma parse_accepts_cut_line :
  List.length sample_cut < layout_width /\ decodes sample_cut = true.
Proof. split; [vm_compute; lia | vm_compute; reflexivity]. Qed.

(** C6, amended: every input shorter than 115 characters, that is,
    truncated before the end of the last decoded field (contact 2), makes
    the decoder return the failure signal [None]; it does not raise. *)
Theorem parse_fails_when_truncated (s : str) :
  List.length s < 115 -> _parse_ems_line s = Ok None.
Proof.
  intros Hlen. rewrite parse_line_layout.
  destruct (mapM (field s) numeric_fields) as [vs|e] eqn:E; [|reflexivity].
  apply decoded_length in E. lia.
Qed.

Lemma parse_fails_when_truncated_witness :
  List.length (firstn 114 (str_of sample_line)) < 115 /\
  _parse_ems_line (firstn 114 (str_of sample_line)) = Ok None.
Proof.
  assert (H : List.length (firstn 114 (str_of sample_line)) < 115)
    by (vm_compute; lia).
  exact (conj H (parse_fails_when_truncated _ H)).
Defined.

Lemma decoded_fields (s : str) (d : dict) :
  _parse_ems_line s = Ok (Some d) ->
  exists vs, mapM (field s) numeric_fields = Ok vs /\ d = record_of vs.
Proof.
  rewrite parse_line_layout.
  destruct (mapM (field s) numeric_fields) as [vs|e]; [|discriminate].
  intros H. injection H as <-. eauto.
Qed.

(** C7: on every successfully decoded line the RPM field is the
    3-character slice at offset 27 read as an integer, times 10 (so a
    multiple of 10); a slice ["250"] gives 2500. *)
Theorem rpm_is_ten_times_raw (s : str) (d : dict) :
  _parse_ems_line s = Ok (Some d) ->
  List.length (slice s 27 30) = 3 /\
  (exists raw, int_ (slice s 27 30) 10 = Ok raw /\
               get d "rpm" = Some (VInt (raw * 10))) /\
  (slice s 27 30 = str_of "250" -> get d "rpm" = Some (VInt 2500)).
Proof.
  intros H. destruct (decoded_fields s d H) as [vs [E ->]].
  pose proof (decoded_length s vs E) as Hlen.
  assert (Hraw : int_ (slice s 27 30) 10 = Ok (nth 10 vs 0%Z))
    by (apply (mapM_ok_nth (field s) numeric_fields vs 10 (27, 3) 0%Z E); reflexivity).
  split; [apply slice_length; lia|]. split.
  - exists (nth 10 vs 0%Z). split; [assumption | reflexivity].
  - intros E250. rewrite E250 in Hraw. injection Hraw as Hraw.
    change (get (record_of vs) "rpm") with (Some (VInt (nth 10 vs 0 * 10)%Z)).
    now rewrite <- Hraw.
Qed.

Lemma rpm_is_ten_times_raw_witness :
  _parse_ems_line (str_of sample_line) = Ok (Some sample_record) /\
  List.length (slice (str_of sample_line) 27 30) = 3 /\
  (exists raw, int_ (slice (str_of sample_line) 27 30) 10 = Ok raw /\
               get sample_record "rpm" = Some (VInt (raw * 10))) /\
  (slice (str_of sample_line) 27 30 = str_of "250" ->
   get sample_record "rpm" = Some (VInt 2500)).
Proof.
  assert (H : _parse_ems_line (str_of sample_line) = Ok (Some sample_record))
    by (vm_compute; reflexivity).
  exact (conj H (rpm_is_ten_times_raw _ _ H)).
Defined.

(** A minus sign followed by two decimal digits reads as the negated
    two-digit number. *)
Lemma int_minus_two_digits (a c : ascii) :
  is_decimal_digit a = true -> is_decimal_digit c = true ->
  int_ ["-"%char; a; c] 10 =
  Ok (- (10 * (Z.of_N (ord a) - 48) + (Z.of_N (ord c) - 48)))%Z.
Proof.
  destruct a as [[] [] [] [] [] [] [] []]; try discriminate; intros _;
    destruct c as [[] [] [] [] [] [] [] []]; try discriminate; intros _;
    reflexivity.
Qed.

(** C8: on every successfully decoded line the oil temperature is the
    3-character slice at offset 12 read as a signed integer; a leading
    minus takes one of the three positions, so that minus and two digits
    give the negated two-digit number, and ["-05"] gives -5. *)
Theorem oil_temp_is_signed_slice (s : str) (d : dict) :
  _parse_ems_line s = Ok (Some d) ->
  List.length (slice s 12 15) = 3 /\
  (exists t, int_ (slice s 12 15) 10 = Ok t /\
             get d "oil_temp_f" = Some (VInt t)) /\
  (forall a c, is_decimal_digit a = true -> is_decimal_digit c = true ->
     slice s 12 15 = ["-"%char; a; c] ->
     get d "oil_temp_f" =
     Some (VInt (- (10 * (Z.of_N (ord a) - 48) + (Z.of_N (ord c) - 48))))) /\
  (slice s 12 15 = str_of "-05" -> get d "oil_temp_f" = Some (VInt (-5))).
Proof.
  intros H. destruct (decoded_fields s d H) as [vs [E ->]].
  pose proof (decoded_length s vs E) as Hlen.
  assert (Hraw : int_ (slice s 12 15) 10 = Ok (nth 5 vs 0%Z))
    by (apply (mapM_ok_nth (field s) numeric_fields vs 5 (12, 3) 0%Z E); reflexivity).
  change (get (record_of vs) "oil_temp_f") with (Some (VInt (nth 5 vs 0%Z))).
  split; [apply slice_length; lia|]. split; [|split].
  - exists (nth 5 vs 0%Z). split; [assumption | reflexivity].
  - intros a c Ha Hc Es. rewrite Es, (int_minus_two_digits a c Ha Hc) in Hraw.
    injection Hraw as Hraw. now rewrite <- Hraw.
  - intros Es. rewrite Es in Hraw. injection Hraw as Hraw. now rewrite <- Hraw.
Qed.

Lemma oil_temp_is_signed_slice_witness :
  _parse_ems_line (str_of sample_line) = Ok (Some sample_record) /\
  slice (str_of sample_line) 12 15 = str_of "-05" /\
  get sample_record "oil_temp_f" = Some (VInt (-5)).
Proof.
  assert (H : _parse_ems_line (str_of sample_line) = Ok (Some sample_record))
    by (vm_compute; reflexivity).
  assert (Es : slice (str_of sample_line) 12 15 = str_of "-05") by reflexivity.
  exact (conj H (conj Es
           (proj2 (proj2 (proj2 (oil_temp_is_signed_slice _ _ H))) Es))).
Defined.

(** C9: the decoder reads nothing past the first 115 characters.  Two
    inputs that agree on their first 115 characters give the same
    result (the same record, or both [None]); and cutting a decodable
    line down to its first 115 characters, dropping product ID and
    checksum, still gives the same complete record. *)
Theorem parse_reads_first_115_only :
  (forall s1 s2, firstn 115 s1 = firstn 115 s2 ->
     _parse_ems_line s1 = _parse_ems_line s2) /\
  (forall s d, _parse_ems_line s = Ok (Some d) ->
     List.length (firstn 115 s) = 115 /\
     _parse_ems_line (firstn 115 s) = Ok (Some d) /\
     complete d = true).
Proof.
  assert (Hcut : forall s, mapM (field (firstn 115 s)) numeric_fields
                           = mapM (field s) numeric_fields).
  { intros s. apply mapM_ext_in. intros f Hf. unfold field.
    now rewrite slice_firstn by (apply numeric_fields_end, Hf). }
  split.
  - intros s1 s2 H. rewrite !parse_line_layout.
    now rewrite <- (Hcut s1), <- (Hcut s2), H.
  - intros s d H. destruct (decoded_fields s d H) as [vs [E ->]].
    pose proof (decoded_length s vs E) as Hlen.
    split; [rewrite length_firstn; lia|]. split; [|reflexivity].
    now rewrite parse_line_layout, Hcut, E.
Qed.

Lemma parse_reads_first_115_only_witness :
  (firstn 115 (str_of sample_line) = firstn 115 (sample_cut ++ str_of "ZZ??") /\
   _parse_ems_line (str_of sample_line) = _parse_ems_line (sample_cut ++ str_of "ZZ??")) /\
  (_parse_ems_line (str_of sample_line) = Ok (Some sample_record) /\
   List.length (firstn 115 (str_of sample_line)) = 115 /\
   _parse_ems_line (firstn 115 (str_of sample_line)) = Ok (Some sample_record) /\
   complete sample_record = true).
Proof.
  assert (H1 : firstn 115 (str_of sample_line) = firstn 115 (sample_cut ++ str_of "ZZ??"))
    by reflexivity.
  assert (H2 : _parse_ems_line (str_of sample_line) = Ok (Some sample_record))
    by (vm_compute; reflexivity).
  exact (conj (conj H1 (proj1 parse_reads_first_115_only _ _ H1))
              (conj H2 (proj2 parse_reads_first_115_only _ _ H2))).
Defined.

(** C5, as stated, fails: with ["+25"] as RPM field the sample has a
    character that is neither a digit nor a minus sign at position 27,
    inside a numeric field, and is decoded all the same (RPM 250). *)
Lemma parse_accepts_plus_sign :
  nth_error (str_of sample_plus) 27 = Some "+"%char /\
  numeric_pos 27 = true /\
  is_decimal_digit "+" = false /\
  is_char "-" "+" = false /\
  decodes (str_of sample_plus) = true /\
  decoded_field (str_of sample_plus) "rpm" = Some (VInt 250).
Proof. repeat split; vm_compute; reflexivity. Qed.

(** A consequence for single characters: a line that has, at any
    position inside a numeric field, a character other than a decimal
    digit, a sign ([+] or [-]), an underscore or a white space fails to
    decode. *)
Lemma parse_rejects_foreign_character (s : str) (i : nat) (c : ascii) :
  nth_error s i = Some c ->
  numeric_pos i = true ->
  int_tolerates c = false ->
  _parse_ems_line s = Ok None.
Proof.
  intros Hc Hpos Hbad. rewrite parse_line_layout.
  destruct (mapM (field s) numeric_fields) as [vs|e] eqn:E; [|reflexivity].
  destruct (numeric_pos_field i Hpos) as [f [Hf Hi]].
  destruct (mapM_ok_in _ _ _ _ E Hf) as [v Hv].
  apply int_ok_tolerated in Hv. rewrite Forall_forall in Hv.
  specialize (Hv c (slice_in _ s _ _ i c Hc Hi)). congruence.
Qed.

Lemma parse_rejects_foreign_character_witness :
  nth_error (str_of sample_bad) 28 = Some "X"%char /\
  numeric_pos 28 = true /\
  int_tolerates "X" = false /\
  _parse_ems_line (str_of sample_bad) = Ok None.
Proof.
  assert (H1 : nth_error (str_of sample_bad) 28 = Some "X"%char) by reflexivity.
  assert (H2 : numeric_pos 28 = true) by reflexivity.
  assert (H3 : int_tolerates "X" = false) by reflexivity.
  exact (conj H1 (conj H2 (conj H3 (parse_rejects_foreign_character _ _ _ H1 H2 H3)))).
Defined.

(** ** Further properties of the validator *)

(** The verdict on a payload, a two-character checksum field and a
    line terminator. *)
Lemma checksum_split (p chk tail : bytes) :
  List.length chk = 2 ->
  rstrip CRLF chk = chk ->
  forallb CRLF tail = true ->
  _ems_checksum_ok (p ++ chk ++ tail) =
  Ok (if List.length p <? 2 then false
      else match checksum_field chk with
           | Ok v => ((sum p + v) mod 256 =? 0)%Z
           | Raise _ => false
           end).
Proof.
  intros Hlen Hchk Htail.
  assert (Hbody : rstrip CRLF (p ++ chk ++ tail) = p ++ chk).
  { rewrite app_assoc, rstrip_app, (rstrip_suffix _ _ Htail).
    rewrite rstrip_app, Hchk.
    destruct chk; [discriminate | reflexivity]. }
  rewrite checksum_ok_eq, Hbody. cbv zeta. rewrite length_app, Hlen.
  f_equal.
  destruct (Nat.ltb_spec (List.length p + 2) 4) as [H4|H4];
    destruct (Nat.ltb_spec (List.length p) 2) as [H2|H2];
    try lia; try reflexivity.
  unfold checksum_field.
  rewrite slice_last_app, slice_but_last_app by assumption.
  destruct (length_two _ chk Hlen) as [h [l ->]].
  change (slice_last 2 [h; l]) with [h; l].
  destruct (bind _ _); [|reflexivity]. now rewrite land_255.
Qed.

Lemma rstrip_pair (h l : byte) : CRLF l = false -> rstrip CRLF [h; l] = [h; l].
Proof. intros H. simpl. now rewrite H. Qed.

(** X1: trailing CR/LF characters, however many and in whatever
    order, do not change the validator's verdict. *)
Theorem checksum_ignores_terminator (raw tail : bytes) :
  forallb CRLF tail = true ->
  _ems_checksum_ok (raw ++ tail) = _ems_checksum_ok raw.
Proof.
  intros Htail. rewrite !checksum_ok_eq.
  now rewrite rstrip_app, (rstrip_suffix _ _ Htail).
Qed.

Lemma checksum_ignores_terminator_witness :
  forallb CRLF [x0a; x0d; x0a] = true /\
  _ems_checksum_ok (bytes_of sample_line ++ [x0a; x0d; x0a])
  = _ems_checksum_ok (bytes_of sample_line).
Proof.
  assert (H : forallb CRLF [x0a; x0d; x0a] = true) by reflexivity.
  exact (conj H (checksum_ignores_terminator (bytes_of sample_line) _ H)).
Defined.

(** X2: for a payload of at least two bytes exactly one of the 256
    checksum values is accepted: the rendering of [c] validates the
    payload if and only if [c] is minus the byte sum modulo 256. *)
Theorem checksum_value_unique (upper : bool) (p : bytes) (c : Z) :
  2 <= List.length p ->
  (0 <= c < 256)%Z ->
  (_ems_checksum_ok (p ++ hex2 upper c) = Ok true <-> c = ((- sum p) mod 256)%Z).
Proof.
  intros Hp Hc. destruct (hex2_reads_back upper c Hc) as [Hv Hr].
  pose proof (checksum_split p (hex2 upper c) [] eq_refl Hr eq_refl) as E.
  rewrite app_nil_r in E. rewrite E.
  destruct (Nat.ltb_spec (List.length p) 2); [lia|].
  rewrite Hv. split.
  - intros Hok. injection Hok as Hok. apply Z.eqb_eq in Hok.
    apply Z.mod_divide in Hok; [|lia]. destruct Hok as [q Hq].
    apply Z.mod_unique with (q := (- q)%Z); lia.
  - intros ->. f_equal. apply Z.eqb_eq.
    rewrite Zplus_mod_idemp_r. replace (sum p + - sum p)%Z with 0%Z by lia.
    reflexivity.
Qed.

Lemma checksum_value_unique_witness :
  2 <= List.length sample_payload /\
  (0 <= 29 < 256)%Z /\
  (_ems_checksum_ok (sample_payload ++ hex2 true 29) = Ok true <->
   29%Z = ((- sum sample_payload) mod 256)%Z).
Proof.
  assert (H1 : 2 <= List.length sample_payload) by (vm_compute; lia).
  assert (H2 : (0 <= 29 < 256)%Z) by lia.
  exact (conj H1 (conj H2 (checksum_value_unique true sample_payload 29 H1 H2))).
Defined.

Lemma sum_permutation (p q : bytes) : Permutation p q -> sum p = sum q.
Proof.
  induction 1 as [|x p q _ IH|x y p|p q r _ IH1 _ IH2]; simpl; lia.
Qed.

(** X3: the checksum is a plain sum, so reordering the payload bytes
    is never noticed: two lines whose payloads are permutations of one
    another, with the same checksum field, get the same verdict. *)
Theorem checksum_blind_to_reordering (p q : bytes) (h l : byte) :
  Permutation p q ->
  CRLF l = false ->
  _ems_checksum_ok (p ++ [h; l]) = _ems_checksum_ok (q ++ [h; l]).
Proof.
  intros Hpq Hl.
  pose proof (checksum_split p [h; l] [] eq_refl (rstrip_pair h l Hl) eq_refl) as Ep.
  pose proof (checksum_split q [h; l] [] eq_refl (rstrip_pair h l Hl) eq_refl) as Eq.
  rewrite app_nil_r in Ep, Eq. rewrite Ep, Eq.
  now rewrite (Permutation_length Hpq), (sum_permutation p q Hpq).
Qed.

Lemma checksum_blind_to_reordering_witness :
  Permutation (bytes_of "~}") (bytes_of "}~") /\
  CRLF "5"%byte = false /\
  _ems_checksum_ok (bytes_of "~}" ++ ["0"%byte; "5"%byte])
  = _ems_checksum_ok (bytes_of "}~" ++ ["0"%byte; "5"%byte]) /\
  _ems_checksum_ok (bytes_of "~}05") = Ok true.
Proof.
  assert (H1 : Permutation (bytes_of "~}") (bytes_of "}~")) by apply perm_swap.
  assert (H2 : CRLF "5"%byte = false) by reflexivity.
  exact (conj H1 (conj H2 (conj (checksum_blind_to_reordering _ _ "0"%byte "5"%byte H1 H2) eq_refl))).
Defined.

(** ** Further properties of the decoder *)

Lemma scan_digits_bound l prev acc n v n' rest :
  scan_digits 10 l prev acc n = Some (v, n', rest) ->
  (Z.of_N v + 1 <= (Z.of_N acc + 1) * 10 ^ Z.of_nat (List.length l))%Z.
Proof.
  revert prev acc n.
  induction l as [|c l IH]; cbn [scan_digits]; intros prev acc n H.
  - destruct prev; [discriminate|]. injection H as <- _ _.
    cbn [List.length]. change (10 ^ Z.of_nat 0)%Z with 1%Z. lia.
  - cbn [List.length]. rewrite Nat2Z.inj_succ, Z.pow_succ_r by lia.
    assert (Hpos : (0 < 10 ^ Z.of_nat (List.length l))%Z)
      by (apply Z.pow_pos_nonneg; lia).
    destruct (is_char "_" c).
    { destruct prev; [discriminate|]. apply IH in H. nia. }
    destruct (digit_value c <? 10)%N eqn:Ed.
    { apply IH in H. apply N.ltb_lt in Ed. nia. }
    destruct prev; [discriminate|]. injection H as <- _ _. nia.
Qed.

Lemma skip_space_length l : List.length (skip_space l) <= List.length l.
Proof.
  induction l as [|c l IH]; cbn [skip_space]; [lia|].
  destruct (is_space c); cbn [List.length]; lia.
Qed.

Lemma skip_sign_cases l sg l1 :
  skip_sign l = (sg, l1) ->
  (sg = 1%Z /\ List.length l1 <= List.length l) \/
  (sg = (-1)%Z /\ S (List.length l1) <= List.length l).
Proof.
  destruct l as [|c l]; cbn [skip_sign].
  - intros H. injection H as <- <-. left. split; [reflexivity | lia].
  - destruct (is_char "+" c).
    { intros H. injection H as <- <-. left. cbn [List.length]. split; [reflexivity | lia]. }
    destruct (is_char "-" c); intros H; injection H as <- <-; cbn [List.length];
      [right | left]; split; try reflexivity; lia.
Qed.

(** A text of [w] characters that [int] accepts denotes an integer
    strictly between [-10^(w-1)] and [10^w]. *)
Lemma int_range l v :
  int_ l 10 = Ok v ->
  (- 10 ^ Z.of_nat (List.length l - 1) < v < 10 ^ Z.of_nat (List.length l))%Z.
Proof.
  unfold int_. pose proof (skip_space_length l) as Hsp.
  destruct (skip_sign (skip_space l)) as [sg l1] eqn:Es.
  apply skip_sign_cases in Es. rewrite skip_prefix_10.
  destruct l1 as [|c t]; [discriminate|].
  destruct (is_char "_" c); [discriminate|].
  destruct (scan_digits 10 (c :: t) false 0 0) as [[[v' [|n']] rest]|] eqn:E;
    try discriminate.
  destruct (skip_space rest); [|discriminate].
  intros H. injection H as <-. apply scan_digits_bound in E.
  change (Z.of_N 0 + 1)%Z with 1%Z in E. rewrite Z.mul_1_l in E.
  pose proof (N2Z.is_nonneg v') as Hv.
  assert (Hp1 : (0 < 10 ^ Z.of_nat (List.length l - 1))%Z)
    by (apply Z.pow_pos_nonneg; lia).
  destruct Es as [[-> Hl]|[-> Hl]].
  - assert (Hm : (10 ^ Z.of_nat (List.length (c :: t))
                  <= 10 ^ Z.of_nat (List.length l))%Z)
      by (apply Z.pow_le_mono_r; lia).
    lia.
  - assert (Hm : (10 ^ Z.of_nat (List.length (c :: t))
                  <= 10 ^ Z.of_nat (List.length l - 1))%Z)
      by (apply Z.pow_le_mono_r; lia).
    assert (Hp : (0 < 10 ^ Z.of_nat (List.length l))%Z)
      by (apply Z.pow_pos_nonneg; lia).
    lia.
Qed.

Lemma field_value_range s vs k o w :
  mapM (field s) numeric_fields = Ok vs ->
  nth_error numeric_fields k = Some (o, w) ->
  (- 10 ^ Z.of_nat (w - 1) < nth k vs 0 < 10 ^ Z.of_nat w)%Z.
Proof.
  intros E Hk. pose proof (decoded_length s vs E) as Hlen.
  pose proof (mapM_ok_nth (field s) numeric_fields vs k (o, w) 0%Z E Hk) as Hv.
  apply int_range in Hv. unfold field in Hv. cbn [fst snd] in Hv.
  rewrite slice_length in Hv.
  - now replace (o + w - o) with w in Hv by lia.
  - apply nth_error_In in Hk. apply numeric_fields_end in Hk. simpl in Hk. lia.
Qed.

(** X4: the integers of a decoded record are bounded by their field
    widths: oil temperature, oil pressure, current and each CHT lie
    in -99..999, each EGT in -999..9999, the two contacts in 0..9, and
    the RPM is ten times an integer in -99..999, hence a multiple of
    10 in -990..9990. *)
Theorem decoded_integers_in_range (s : str) (d : dict) :
  _parse_ems_line s = Ok (Some d) ->
  (forall k lo hi, In (k, (lo, hi)) int_ranges ->
     exists v, get d k = Some v /\ within lo hi v) /\
  (exists r, (-99 <= r <= 999)%Z /\ get d "rpm" = Some (VInt (r * 10))).
Proof.
  intros H. destruct (decoded_fields s d H) as [vs [E ->]].
  pose proof (fun k o w => field_value_range s vs k o w E) as R.
  pose proof (R 5 12 3 eq_refl) as R5. pose proof (R 6 15 3 eq_refl) as R6.
  pose proof (R 9 24 3 eq_refl) as R9. pose proof (R 10 27 3 eq_refl) as R10.
  pose proof (R 15 71 4 eq_refl) as R15. pose proof (R 16 75 4 eq_refl) as R16.
  pose proof (R 17 79 4 eq_refl) as R17. pose proof (R 18 83 4 eq_refl) as R18.
  pose proof (R 19 87 4 eq_refl) as R19. pose proof (R 20 91 4 eq_refl) as R20.
  pose proof (R 21 95 3 eq_refl) as R21. pose proof (R 22 98 3 eq_refl) as R22.
  pose proof (R 23 101 3 eq_refl) as R23. pose proof (R 24 104 3 eq_refl) as R24.
  pose proof (R 25 107 3 eq_refl) as R25. pose proof (R 26 110 3 eq_refl) as R26.
  pose proof (R 27 113 1 eq_refl) as R27. pose proof (R 28 114 1 eq_refl) as R28.
  clear R.
  change (10 ^ Z.of_nat (3 - 1))%Z with 100%Z in *.
  change (10 ^ Z.of_nat 3)%Z with 1000%Z in *.
  change (10 ^ Z.of_nat (4 - 1))%Z with 1000%Z in *.
  change (10 ^ Z.of_nat 4)%Z with 10000%Z in *.
  change (10 ^ Z.of_nat (1 - 1))%Z with 1%Z in *.
  change (10 ^ Z.of_nat 1)%Z with 10%Z in *.
  split.
  - intros k lo hi Hin. simpl in Hin.
    repeat (destruct Hin as [Hin|Hin];
            [ injection Hin as <- <- <-; eexists; split; [reflexivity|];
              cbn [within map seq]; repeat constructor; lia | ]).
    contradiction.
  - exists (nth 10 vs 0%Z). split; [lia | reflexivity].
Qed.

Lemma decoded_integers_in_range_witness :
  _parse_ems_line (str_of sample_line) = Ok (Some sample_record) /\
  In ("rpm"%string, (-990, 9990)%Z) int_ranges /\
  (exists v, get sample_record "rpm" = Some v /\ within (-990) 9990 v) /\
  (exists r, (-99 <= r <= 999)%Z /\ get sample_record "rpm" = Some (VInt (r * 10))).
Proof.
  assert (H1 : _parse_ems_line (str_of sample_line) = Ok (Some sample_record))
    by (vm_compute; reflexivity).
  assert (H2 : In ("rpm"%string, (-990, 9990)%Z) int_ranges)
    by (simpl; tauto).
  exact (conj H1 (conj H2
           (conj (proj1 (decoded_integers_in_range _ _ H1) _ _ _ H2)
                 (proj2 (decoded_integers_in_range _ _ H1))))).
Defined.

Lemma digit_char_facts c :
  is_decimal_digit c = true ->
  is_space c = false /\ is_char "+" c = false /\ is_char "-" c = false /\
  is_char "_" c = false /\ (digit_value c <? 10)%N = true /\
  Z.of_N (digit_value c) = (Z.of_N (ord c) - 48)%Z /\
  isspace c = false.
Proof.
  destruct c as [[] [] [] [] [] [] [] []]; try discriminate; intros _;
    repeat split; reflexivity.
Qed.

Lemma scan_all_digits l acc n :
  Forall (fun c => is_decimal_digit c = true) l ->
  exists v,
    scan_digits 10 l false acc n = Some (v, n + List.length l, []) /\
    Z.of_N v =
    fold_left (fun a c => (a * 10 + (Z.of_N (ord c) - 48))%Z) l (Z.of_N acc).
Proof.
  intros Hl. revert acc n.
  induction Hl as [|c l Hc _ IH]; intros acc n; cbn [scan_digits fold_left List.length].
  - exists acc. now rewrite Nat.add_0_r.
  - destruct (digit_char_facts c Hc) as (_ & _ & _ & -> & -> & Hd & _).
    destruct (IH (acc * 10 + digit_value c)%N (S n)) as [v [E Hv]].
    exists v. split.
    + rewrite E. now rewrite Nat.add_succ_r.
    + rewrite Hv. f_equal. lia.
Qed.

(** A non-empty run of decimal digits reads as the number it writes. *)
Lemma int_digits l :
  l <> [] -> Forall (fun c => is_decimal_digit c = true) l ->
  int_ l 10 = Ok (decimal l).
Proof.
  intros Hne Hl. destruct l as [|c t]; [contradiction|].
  destruct (scan_all_digits (c :: t) 0 0 Hl) as [v [E Hv]].
  inversion Hl as [|? ? Hc _]; subst.
  destruct (digit_char_facts c Hc) as (Hs & Hp & Hm & Hu & _).
  unfold int_. cbn [skip_space]. rewrite Hs. cbn [skip_sign]. rewrite Hp, Hm.
  rewrite skip_prefix_10, Hu, E. cbn [Nat.add List.length skip_space].
  change (Z.of_N 0) with 0%Z in Hv. unfold decimal. rewrite <- Hv.
  f_equal. lia.
Qed.

Lemma mapM_all_ok {A B} (f : A -> result B) (g : A -> B) l :
  (forall x, In x l -> f x = Ok (g x)) -> mapM f l = Ok (map g l).
Proof.
  induction l as [|x l IH]; simpl; intros H; [reflexivity|].
  rewrite (H x) by auto. simpl. now rewrite IH by auto.
Qed.

Lemma slice_in_inv A (s : list A) o j c :
  In c (slice s o j) -> exists i, o <= i < j /\ nth_error s i = Some c.
Proof.
  unfold slice. intros H. apply In_nth_error in H as [k Hk].
  rewrite nth_error_firstn in Hk.
  destruct (Nat.ltb_spec k (j - o)); [|discriminate].
  rewrite nth_error_skipn in Hk. exists (o + k). split; [lia | assumption].
Qed.

Lemma field_numeric_pos f i :
  In f numeric_fields -> fst f <= i < fst f + snd f -> numeric_pos i = true.
Proof.
  intros Hf Hi. unfold numeric_pos. apply existsb_exists. exists f.
  split; [assumption|]. unfold covers.
  apply andb_true_intro. split; [apply Nat.leb_le | apply Nat.ltb_lt]; lia.
Qed.

Lemma numeric_fields_width f : In f numeric_fields -> 1 <= snd f.
Proof.
  assert (H : forallb (fun f => 1 <=? snd f) numeric_fields = true)
    by reflexivity.
  rewrite forallb_forall in H. intros Hf. now apply Nat.leb_le, H.
Qed.

(** A line of at least 115 characters with decimal digits at every
    position of a numeric field decodes, field by field, to the numbers
    the digits write. *)
Lemma digit_fields_decode (s : str) :
  115 <= List.length s ->
  (forall i c, numeric_pos i = true -> nth_error s i = Some c ->
               is_decimal_digit c = true) ->
  _parse_ems_line s = Ok (Some (digits_record s)).
Proof.
  intros Hlen Hdig. rewrite parse_line_layout. unfold digits_record.
  rewrite (mapM_all_ok (field s)
             (fun f => decimal (slice s (fst f) (fst f + snd f)))); [reflexivity|].
  intros f Hf. unfold field.
  pose proof (numeric_fields_end f Hf) as Hend.
  pose proof (numeric_fields_width f Hf) as Hw.
  apply int_digits.
  - intros E. apply (f_equal (@List.length ascii)) in E.
    rewrite slice_length in E by lia. simpl in E. lia.
  - apply Forall_forall. intros c Hc.
    apply slice_in_inv in Hc as [i [Hi Hn]].
    apply (Hdig i c); [|assumption]. now apply (field_numeric_pos f).
Qed.

(** X5: every line of at least 115 characters that has a decimal
    digit at each position of a numeric field is decoded, whatever the
    opaque fields hold, and each integer is the number its digits
    write; the RPM is ten times the number at offsets 27..29. *)
Theorem parse_accepts_digit_fields (s : str) :
  115 <= List.length s ->
  (forall i c, numeric_pos i = true -> nth_error s i = Some c ->
               is_decimal_digit c = true) ->
  _parse_ems_line s = Ok (Some (digits_record s)) /\
  get (digits_record s) "rpm" = Some (VInt (decimal (slice s 27 30) * 10)) /\
  get (digits_record s) "oil_psi" = Some (VInt (decimal (slice s 15 18))).
Proof.
  intros Hlen Hdig. split; [now apply digit_fields_decode|].
  split; reflexivity.
Qed.

(** The digit condition on a given line is decided by a scan of the
    first 115 positions. *)
Lemma numeric_digits_check (s : str) :
  forallb (fun i => implb (numeric_pos i)
                      match nth_error s i with
                      | Some c => is_decimal_digit c
                      | None => true
                      end) (seq 0 115) = true ->
  forall i c, numeric_pos i = true -> nth_error s i = Some c ->
              is_decimal_digit c = true.
Proof.
  intros H i c Hpos Hc. rewrite forallb_forall in H.
  destruct (numeric_pos_field i Hpos) as [f [Hf Hi]].
  pose proof (numeric_fields_end f Hf) as Hend.
  assert (Hin : In i (seq 0 115)) by (apply in_seq; lia).
  specialize (H i Hin). now rewrite Hpos, Hc in H.
Qed.

Lemma parse_accepts_digit_fields_witness :
  115 <= List.length (str_of sample_digits) /\
  _parse_ems_line (str_of sample_digits) = Ok (Some (digits_record (str_of sample_digits))) /\
  get (digits_record (str_of sample_digits)) "rpm" = Some (VInt 2500).
Proof.
  assert (H1 : 115 <= List.length (str_of sample_digits)) by (vm_compute; lia).
  assert (H2 : forall i c, numeric_pos i = true ->
                 nth_error (str_of sample_digits) i = Some c ->
                 is_decimal_digit c = true)
    by (apply numeric_digits_check; vm_compute; reflexivity).
  exact (conj H1 (conj (proj1 (parse_accepts_digit_fields _ H1 H2)) eq_refl)).
Defined.

(** ** The caller: text preparation *)

Lemma ord_ascii_of_byte (x : byte) : ord (ascii_of_byte x) = Byte.to_N x.
Proof.
  unfold ord. rewrite ascii_of_byte_via_N. apply N_ascii_embedding.
  pose proof (Byte.to_N_bounded x). lia.
Qed.

Lemma to_N_byte_of_ascii (c : ascii) : Byte.to_N (byte_of_ascii c) = ord c.
Proof.
  unfold ord. apply Byte.to_of_N. symmetry. apply byte_of_ascii_via_N.
Qed.

Lemma decode_ascii_ignore_app a t :
  decode_ascii_ignore (a ++ t) = decode_ascii_ignore a ++ decode_ascii_ignore t.
Proof. unfold decode_ascii_ignore. now rewrite filter_app, map_app. Qed.

Lemma decode_ascii_ignore_clean raw :
  forallb is_ascii_byte raw = true -> decode_ascii_ignore raw = text_of raw.
Proof.
  intros H. unfold decode_ascii_ignore, text_of. now rewrite forallb_filter_id.
Qed.

Lemma decode_ascii_ignore_length raw :
  List.length (decode_ascii_ignore raw) <= List.length raw.
Proof.
  unfold decode_ascii_ignore. rewrite length_map. apply filter_length_le.
Qed.

Lemma decode_terminator tail :
  forallb CRLF tail = true ->
  forallb isspace (decode_ascii_ignore tail) = true.
Proof.
  induction tail as [|x t IH]; [reflexivity|]. cbn [forallb].
  intros H. apply andb_prop in H as [Hx Ht].
  change (x :: t) with ([x] ++ t).
  rewrite decode_ascii_ignore_app, forallb_app, (IH Ht), andb_true_r.
  destruct x; try discriminate; reflexivity.
Qed.

Lemma lstrip_decompose s :
  exists t, s = t ++ lstrip s /\ forallb isspace t = true.
Proof.
  induction s as [|c s [t [E Ht]]]; cbn [lstrip].
  - now exists [].
  - destruct (isspace c) eqn:Ec.
    + exists (c :: t). cbn [forallb app]. rewrite Ec, Ht. now rewrite <- E.
    + now exists [].
Qed.

Lemma rstrip_space_decompose s :
  exists t, s = rstrip_space s ++ t /\ forallb isspace t = true.
Proof.
  induction s as [|c s [t [E Ht]]]; cbn [rstrip_space].
  - now exists [].
  - destruct (rstrip_space s) as [|y r] eqn:Er.
    + destruct (isspace c) eqn:Ec.
      * exists (c :: t). cbn [forallb app]. rewrite Ec, Ht.
        simpl in E. subst s. now split.
      * exists t. simpl in E. subst s. now split.
    + exists t. split; [|assumption]. simpl in *. congruence.
Qed.

Lemma lstrip_spaces t : forallb isspace t = true -> lstrip t = [].
Proof.
  induction t as [|c t IH]; cbn [lstrip forallb]; [reflexivity|].
  intros H. apply andb_prop in H as [-> Ht]. auto.
Qed.

Lemma lstrip_app a t :
  lstrip (a ++ t) =
  match lstrip a with
  | [] => lstrip t
  | _ :: _ => lstrip a ++ t
  end.
Proof.
  induction a as [|c a IH]; cbn [lstrip app].
  - destruct (lstrip t); reflexivity.
  - destruct (isspace c); [assumption | reflexivity].
Qed.

Lemma rstrip_space_spaces t : forallb isspace t = true -> rstrip_space t = [].
Proof.
  induction t as [|c t IH]; cbn [rstrip_space forallb]; [reflexivity|].
  intros H. apply andb_prop in H as [Hc Ht]. now rewrite (IH Ht), Hc.
Qed.

Lemma rstrip_space_app a t :
  rstrip_space (a ++ t) =
  match rstrip_space t with
  | [] => rstrip_space a
  | _ :: _ => a ++ rstrip_space t
  end.
Proof.
  induction a as [|c a IH]; cbn [rstrip_space app].
  - destruct (rstrip_space t); reflexivity.
  - rewrite IH. destruct (rstrip_space t) as [|y r]; [reflexivity|].
    destruct a; reflexivity.
Qed.

Lemma strip_app_spaces a t :
  forallb isspace t = true -> strip (a ++ t) = strip a.
Proof.
  intros Ht. unfold strip. rewrite lstrip_app.
  destruct (lstrip a) as [|c l]; [now rewrite (lstrip_spaces t Ht)|].
  now rewrite rstrip_space_app, (rstrip_space_spaces t Ht).
Qed.

Lemma strip_length s : List.length (strip s) <= List.length s.
Proof.
  unfold strip.
  destruct (lstrip_decompose s) as [t1 [E1 _]].
  destruct (rstrip_space_decompose (lstrip s)) as [t2 [E2 _]].
  apply (f_equal (@List.length ascii)) in E1, E2.
  rewrite length_app in E1, E2. lia.
Qed.

Lemma strip_incl s c : In c (strip s) -> In c s.
Proof.
  unfold strip. intros H.
  destruct (lstrip_decompose s) as [t1 [E1 _]].
  destruct (rstrip_space_decompose (lstrip s)) as [t2 [E2 _]].
  rewrite E1, E2. apply in_or_app. right. apply in_or_app. now left.
Qed.

Lemma strip_clean c m y :
  isspace c = false -> isspace y = false ->
  strip (c :: m ++ [y]) = c :: m ++ [y].
Proof.
  intros Hc Hy. unfold strip. cbn [lstrip]. rewrite Hc.
  change (c :: m ++ [y]) with ((c :: m) ++ [y]).
  rewrite rstrip_space_app. cbn [rstrip_space]. now rewrite Hy.
Qed.

Lemma line_text_terminator raw tail :
  forallb CRLF tail = true -> line_text (raw ++ tail) = line_text raw.
Proof.
  intros H. unfold line_text. rewrite decode_ascii_ignore_app.
  apply strip_app_spaces. now apply decode_terminator.
Qed.

Lemma rstrip_decompose raw :
  exists tail, raw = rstrip CRLF raw ++ tail /\ forallb CRLF tail = true.
Proof.
  induction raw as [|x raw [t [E Ht]]]; cbn [rstrip].
  - now exists [].
  - destruct (rstrip CRLF raw) as [|y r] eqn:Er.
    + destruct (CRLF x) eqn:Ex.
      * exists (x :: t). cbn [forallb app]. rewrite Ex, Ht.
        simpl in E. subst raw. now split.
      * exists t. simpl in E. subst raw. now split.
    + exists t. split; [|assumption]. simpl in *. congruence.
Qed.

(** The text handed to the decoder is no longer than the body the
    validator looked at. *)
Lemma line_text_length raw :
  List.length (line_text raw) <= List.length (rstrip CRLF raw).
Proof.
  destruct (rstrip_decompose raw) as [tail [E Ht]].
  rewrite E at 1. rewrite (line_text_terminator _ _ Ht). unfold line_text.
  pose proof (strip_length (decode_ascii_ignore (rstrip CRLF raw))).
  pose proof (decode_ascii_ignore_length (rstrip CRLF raw)). lia.
Qed.

(** ** The caller: the claims about [readMessage] *)

(** X6: the handling of a line (verdict, bad-line counter, text and
    parsed record) does not depend on the CR/LF characters that end
    it. *)
Theorem accept_line_ignores_terminator (msg_bad : Z) (raw tail : bytes) :
  forallb CRLF tail = true ->
  accept_line msg_bad (raw ++ tail) = accept_line msg_bad raw.
Proof.
  intros Ht. unfold accept_line.
  rewrite (line_text_terminator raw tail Ht).
  rewrite !checksum_ok_eq. now rewrite rstrip_app, (rstrip_suffix _ _ Ht).
Qed.

Lemma accept_line_ignores_terminator_witness :
  forallb CRLF [x0d; x0a] = true /\
  accept_line 3 (bytes_of sample_line ++ [x0d; x0a])
  = accept_line 3 (bytes_of sample_line).
Proof.
  assert (H : forallb CRLF [x0d; x0a] = true) by reflexivity.
  exact (conj H (accept_line_ignores_terminator 3 (bytes_of sample_line) _ H)).
Defined.

Lemma lstrip_head s c t : lstrip s = c :: t -> isspace c = false.
Proof.
  induction s as [|a s IH]; cbn [lstrip]; [discriminate|].
  destruct (isspace a) eqn:Ea; [assumption|].
  intros H. injection H as <- _. assumption.
Qed.

Lemma rstrip_space_last s l c : rstrip_space s = l ++ [c] -> isspace c = false.
Proof.
  revert l. induction s as [|a s IH]; cbn [rstrip_space]; intros l H.
  - destruct l; discriminate.
  - destruct (rstrip_space s) as [|y r].
    + destruct (isspace a) eqn:Ea; [destruct l; discriminate|].
      destruct l as [|x [|? ?]]; try discriminate. injection H as <-. assumption.
    + destruct l as [|x l]; [discriminate|]. injection H as _ H.
      now apply (IH l).
Qed.

(** X7: the text handed to the decoder holds ASCII characters only,
    and neither starts nor ends with a white-space character. *)
Theorem line_text_ascii_trimmed (raw : bytes) :
  (forall c, In c (line_text raw) -> is_ascii_char c = true) /\
  (forall c t, line_text raw = c :: t -> isspace c = false) /\
  (forall l c, line_text raw = l ++ [c] -> isspace c = false).
Proof.
  unfold line_text. repeat split.
  - intros c Hc. apply strip_incl in Hc. unfold decode_ascii_ignore in Hc.
    apply in_map_iff in Hc as [x [<- Hx]]. apply filter_In in Hx as [_ Hx].
    unfold is_ascii_char. now rewrite ord_ascii_of_byte.
  - unfold strip. intros c t H.
    destruct (rstrip_space_decompose (lstrip (decode_ascii_ignore raw)))
      as [u [E _]].
    rewrite H in E. exact (lstrip_head _ c (t ++ u) E).
  - unfold strip. intros l c H. now apply rstrip_space_last in H.
Qed.

Lemma line_text_ascii_trimmed_witness :
  In "1"%char (line_text sample_raw) /\ is_ascii_char "1" = true.
Proof.
  assert (H : In "1"%char (line_text sample_raw)) by (vm_compute; tauto).
  exact (conj H (proj1 (line_text_ascii_trimmed sample_raw) _ H)).
Defined.

(** X8: a line whose body (after stripping CR/LF) has fewer than 115
    bytes is always counted as bad and never reaches the mapping step,
    whether or not its checksum is right. *)
Theorem short_line_counted_bad (msg_bad : Z) (raw : bytes) :
  List.length (rstrip CRLF raw) < 115 ->
  accept_line msg_bad raw = Ok ((msg_bad + 1)%Z, None).
Proof.
  intros Hlen. unfold accept_line. rewrite checksum_ok_eq. cbn [bind].
  match goal with |- context [negb ?b] => destruct b end; [|reflexivity].
  cbn [negb]. rewrite parse_line_layout.
  destruct (mapM _ numeric_fields) as [vs|e] eqn:E; [|reflexivity].
  apply decoded_length in E. pose proof (line_text_length raw). lia.
Qed.

Lemma short_line_counted_bad_witness :
  List.length (rstrip CRLF (bytes_of "~}05")) < 115 /\
  _ems_checksum_ok (bytes_of "~}05") = Ok true /\
  accept_line 0 (bytes_of "~}05") = Ok (1%Z, None).
Proof.
  assert (H : List.length (rstrip CRLF (bytes_of "~}05")) < 115)
    by (vm_compute; lia).
  exact (conj H (conj eq_refl (short_line_counted_bad 0 _ H))).
Defined.

(** X9: in playback mode the bytes that are validated are the ASCII
    characters of the text line read from the file: decoding them
    never fails and gives those characters back, so an all-ASCII line
    reaches the decoder unchanged except for the stripped white space. *)
Theorem playback_round_trip (line : str) (raw : bytes) :
  playback_raw line = Some raw ->
  decode_ascii raw = Ok (filter is_ascii_char line) /\
  line_text raw = strip (filter is_ascii_char line) /\
  (forallb is_ascii_char line = true -> line_text raw = strip line).
Proof.
  intros H. assert (E : raw = encode_ascii_ignore line)
    by (destruct line; [discriminate | now injection H]).
  subst raw. clear H. unfold encode_ascii_ignore.
  assert (Hall : forallb is_ascii_byte
                   (map byte_of_ascii (filter is_ascii_char line)) = true).
  { apply forallb_forall. intros x Hx. apply in_map_iff in Hx as [c [<- Hc]].
    apply filter_In in Hc as [_ Hc]. unfold is_ascii_byte.
    now rewrite to_N_byte_of_ascii. }
  assert (Hback : map ascii_of_byte
                    (map byte_of_ascii (filter is_ascii_char line))
                  = filter is_ascii_char line).
  { rewrite map_map. rewrite <- (map_id (filter is_ascii_char line)) at 2.
    apply map_ext. intros c. apply ascii_of_byte_of_ascii. }
  assert (Htext : line_text (map byte_of_ascii (filter is_ascii_char line))
                  = strip (filter is_ascii_char line)).
  { unfold line_text. rewrite (decode_ascii_ignore_clean _ Hall).
    unfold text_of. now rewrite Hback. }
  split; [|split].
  - unfold decode_ascii. fold is_ascii_byte.
    change (fun x : byte => (Byte.to_N x <? 128)%N) with is_ascii_byte.
    now rewrite Hall, Hback.
  - exact Htext.
  - intros Hl. rewrite Htext. now rewrite forallb_filter_id.
Qed.

Lemma playback_round_trip_witness :
  playback_raw (str_of sample_line) = Some (bytes_of sample_line) /\
  decode_ascii (bytes_of sample_line)
  = Ok (filter is_ascii_char (str_of sample_line)).
Proof.
  assert (H : playback_raw (str_of sample_line) = Some (bytes_of sample_line))
    by reflexivity.
  exact (conj H (proj1 (playback_round_trip _ _ H))).
Defined.

(** ** The caller: the mapping step *)

Lemma setitem_in_range A (l : list A) (i : nat) (v : A) :
  i < List.length l ->
  setitem l i v = Some (firstn i l ++ v :: skipn (S i) l).
Proof.
  revert i. induction l as [|x l IH]; intros i Hi; [simpl in Hi; lia|].
  destruct i as [|i]; [reflexivity|].
  cbn [setitem firstn skipn app]. rewrite IH by (simpl in Hi; lia).
  reflexivity.
Qed.

Lemma firstn_past_update A (p q : list A) (v : A) :
  firstn (S (List.length p)) (p ++ v :: q) = p ++ [v].
Proof.
  rewrite firstn_app, firstn_all2 by lia.
  replace (S (List.length p) - List.length p) with 1 by lia. reflexivity.
Qed.

Lemma skipn_past_update A (p q : list A) (v : A) (k : nat) :
  skipn (S (List.length p) + k) (p ++ v :: q) = skipn k q.
Proof.
  rewrite skipn_app, skipn_all2 by lia.
  replace (S (List.length p) + k - List.length p) with (S k) by lia.
  reflexivity.
Qed.

Lemma copy_readings_from A (src : list A) :
  forall i dst,
    copy_readings i src dst =
    Some (firstn i dst ++ firstn (List.length dst - i) src
          ++ skipn (i + List.length src) dst).
Proof.
  induction src as [|v src IH]; intros i dst; cbn [copy_readings List.length].
  - rewrite firstn_nil, Nat.add_0_r. cbn [app]. now rewrite firstn_skipn.
  - destruct (Nat.ltb_spec i (List.length dst)) as [Hi|Hi].
    + rewrite (setitem_in_range _ dst i v Hi), IH. f_equal.
      assert (Hfi : List.length (firstn i dst) = i)
        by (rewrite length_firstn; lia).
      assert (Hlen : List.length (firstn i dst ++ v :: skipn (S i) dst)
                     = List.length dst).
      { rewrite length_app, Hfi. cbn [List.length]. rewrite length_skipn. lia. }
      rewrite Hlen.
      replace (List.length dst - i) with (S (List.length dst - S i)) by lia.
      rewrite firstn_cons.
      pose proof (firstn_past_update A (firstn i dst) (skipn (S i) dst) v) as E1.
      pose proof (skipn_past_update A (firstn i dst) (skipn (S i) dst) v
                    (List.length src)) as E2.
      rewrite Hfi in E1, E2. rewrite E1, E2, skipn_skipn.
      replace (List.length src + S i) with (i + S (List.length src)) by lia.
      rewrite <- app_assoc. reflexivity.
    + rewrite IH. f_equal.
      rewrite (firstn_all2 (n := S i) dst), (firstn_all2 (n := i) dst) by lia.
      replace (List.length dst - i) with 0 by lia.
      replace (List.length dst - S i) with 0 by lia.
      rewrite (skipn_all2 (n := S i + List.length src) dst) by lia.
      rewrite (skipn_all2 (n := i + S (List.length src)) dst) by lia.
      reflexivity.
Qed.

(** X10: copying decoded readings into an existing list (EGT, CHT)
    never raises an IndexError and never changes the length of the
    destination: the first [min (len src) (len dst)] slots take the
    readings, later slots keep their values, and readings beyond the
    end of the destination are dropped. *)
Theorem copy_readings_result (A : Type) (src dst : list A) :
  copy_readings 0 src dst =
    Some (firstn (List.length dst) src ++ skipn (List.length src) dst) /\
  List.length (firstn (List.length dst) src ++ skipn (List.length src) dst)
  = List.length dst.
Proof.
  split.
  - rewrite copy_readings_from. cbn [firstn app]. now rewrite Nat.sub_0_r.
  - rewrite length_app, length_firstn, length_skipn. lia.
Qed.

Lemma pad_levels_done fuel l :
  2 <= List.length l -> pad_levels fuel l = Some l.
Proof.
  intros H. destruct (Nat.ltb_spec (List.length l) 2) as [|Hge]; [lia|].
  destruct fuel; cbn [pad_levels];
    destruct (Nat.ltb_spec (List.length l) 2); try lia; reflexivity.
Qed.

(** X11: with two iterations allowed for the padding loop, updating
    the fuel levels always ends without an IndexError: the list then
    starts with the two new tank levels and keeps whatever it held from
    index 2 on (a list shorter than two is padded first). *)
Theorem update_fuel_levels_result (fuel : nat) (l : list value) (a b : float) :
  2 <= fuel ->
  update_fuel_levels fuel l a b = Some (VFloat a :: VFloat b :: skipn 2 l).
Proof.
  intros Hf. destruct fuel as [|[|fuel]]; try lia.
  destruct l as [|x [|y t]]; unfold update_fuel_levels;
    cbn [pad_levels List.length Nat.ltb Nat.leb app];
    rewrite ?pad_levels_done by (simpl; lia); reflexivity.
Qed.

Lemma update_fuel_levels_result_witness :
  2 <= 2 /\
  update_fuel_levels 2 [VFloat 3] 15 8.5
  = Some [VFloat 15; VFloat 8.5].
Proof.
  assert (H : 2 <= 2) by lia.
  exact (conj H (update_fuel_levels_result 2 [VFloat 3] 15 8.5 H)).
Defined.

(** X12: for every decoded record the cylinder count written by the
    mapping step is 6, whatever the count was before: both lists are
    present and hold six readings, so neither the empty-list defaults
    nor the fallback to the current value is used. *)
Theorem number_of_cylinders_is_six (s : str) (d : dict) (current : Z) :
  _parse_ems_line s = Ok (Some d) ->
  number_of_cylinders d current = Some 6%Z.
Proof.
  intros H. destruct (decoded_fields s d H) as [vs [_ ->]]. reflexivity.
Qed.

Lemma number_of_cylinders_is_six_witness :
  _parse_ems_line (str_of sample_line) = Ok (Some sample_record) /\
  number_of_cylinders sample_record 4 = Some 6%Z.
Proof.
  assert (H : _parse_ems_line (str_of sample_line) = Ok (Some sample_record))
    by (vm_compute; reflexivity).
  exact (conj H (number_of_cylinders_is_six _ _ 4 H)).
Defined.

(** ** The caller: a well-formed line, end to end *)

Lemma hex2_chars (upper : bool) (c : Z) :
  (0 <= c < 256)%Z ->
  forallb is_ascii_byte (hex2 upper c) = true /\
  exists h l, hex2 upper c = [h; l] /\ isspace (ascii_of_byte l) = false.
Proof.
  intros Hc.
  assert (Hall : forallb (fun n =>
            forallb (fun up =>
              forallb is_ascii_byte (hex2 up (Z.of_nat n))
              && match hex2 up (Z.of_nat n) with
                 | [_; l] => negb (isspace (ascii_of_byte l))
                 | _ => false
                 end) [true; false]) (seq 0 256) = true)
    by (vm_compute; reflexivity).
  rewrite forallb_forall in Hall.
  specialize (Hall (Z.to_nat c)). rewrite Z2Nat.id in Hall by lia.
  assert (Hin : In (Z.to_nat c) (seq 0 256)) by (apply in_seq; lia).
  specialize (Hall Hin). rewrite forallb_forall in Hall.
  assert (Hup : In upper [true; false]) by (destruct upper; simpl; auto).
  specialize (Hall upper Hup). apply andb_prop in Hall as [Ha Hl].
  split; [assumption|].
  destruct (hex2 upper c) as [|h [|l [|]]]; try discriminate.
  exists h, l. split; [reflexivity|]. now apply negb_true_iff.
Qed.

Lemma digit_byte_char (x : byte) :
  is_digit_byte x = true -> is_decimal_digit (ascii_of_byte x) = true.
Proof.
  unfold is_decimal_digit. rewrite ord_ascii_of_byte. intros H. exact H.
Qed.

Lemma numeric_digit_bytes_check (p : bytes) :
  forallb (fun i => implb (numeric_pos i)
                      match nth_error p i with
                      | Some x => is_digit_byte x
                      | None => true
                      end) (seq 0 115) = true ->
  forall i x, numeric_pos i = true -> nth_error p i = Some x ->
              is_digit_byte x = true.
Proof.
  intros H i x Hpos Hx. rewrite forallb_forall in H.
  destruct (numeric_pos_field i Hpos) as [f [Hf Hi]].
  pose proof (numeric_fields_end f Hf) as Hend.
  assert (Hin : In i (seq 0 115)) by (apply in_seq; lia).
  specialize (H i Hin). now rewrite Hpos, Hx in H.
Qed.

(** X13: a well-formed line is accepted and decoded.  If the payload
    has at least 115 bytes, all ASCII, with a decimal digit at every
    position of a numeric field, and is followed by the two-character
    rendering of the checksum value that zeroes the byte sum (and by
    any CR/LF), then the line passes the checksum, the bad-line counter
    is left unchanged, and the mapping step receives the line's text
    and the record of the numbers written in its fields. *)
Theorem well_formed_line_accepted
  (upper : bool) (p tail : bytes) (c msg_bad : Z) :
  115 <= List.length p ->
  forallb is_ascii_byte p = true ->
  (forall i x, numeric_pos i = true -> nth_error p i = Some x ->
               is_digit_byte x = true) ->
  (0 <= c < 256)%Z ->
  ((sum p + c) mod 256 = 0)%Z ->
  forallb CRLF tail = true ->
  accept_line msg_bad (p ++ hex2 upper c ++ tail) =
  Ok (msg_bad,
      Some (text_of (p ++ hex2 upper c),
            digits_record (text_of (p ++ hex2 upper c)))).
Proof.
  intros Hlen Hascii Hdig Hc Hsum Htail.
  destruct (hex2_reads_back upper c Hc) as [Hv Hr].
  destruct (hex2_chars upper c Hc) as [Hha [h [l [Eh Hl]]]].
  assert (Hck : _ems_checksum_ok (p ++ hex2 upper c ++ tail) = Ok true).
  { rewrite (checksum_split p (hex2 upper c) tail eq_refl Hr Htail).
    destruct (Nat.ltb_spec (List.length p) 2); [lia|].
    rewrite Hv, Hsum. reflexivity. }
  assert (Htext : line_text (p ++ hex2 upper c ++ tail)
                  = text_of (p ++ hex2 upper c)).
  { rewrite app_assoc, (line_text_terminator _ _ Htail). unfold line_text.
    rewrite decode_ascii_ignore_clean
      by (rewrite forallb_app, Hascii, Hha; reflexivity).
    destruct p as [|x p']; [simpl in Hlen; lia|].
    assert (Hx : isspace (ascii_of_byte x) = false).
    { apply digit_char_facts, digit_byte_char. now apply (Hdig 0). }
    rewrite Eh. unfold text_of.
    replace ((x :: p') ++ [h; l]) with (x :: (p' ++ [h]) ++ [l])
      by (cbn [app]; now rewrite <- app_assoc).
    cbn [map]. rewrite map_app. cbn [map].
    now apply strip_clean. }
  assert (Hparse : _parse_ems_line (text_of (p ++ hex2 upper c))
                   = Ok (Some (digits_record (text_of (p ++ hex2 upper c))))).
  { apply digit_fields_decode.
    - unfold text_of. rewrite length_map, length_app. lia.
    - intros i ch Hpos Hn.
      destruct (numeric_pos_field i Hpos) as [f [Hf Hi]].
      pose proof (numeric_fields_end f Hf) as Hend.
      unfold text_of in Hn. rewrite nth_error_map in Hn.
      rewrite nth_error_app1 in Hn by lia.
      destruct (nth_error p i) as [x|] eqn:En; [|discriminate].
      injection Hn as <-. apply digit_byte_char. now apply (Hdig i). }
  unfold accept_line. rewrite Hck. cbn [bind negb]. rewrite Htext, Hparse.
  reflexivity.
Qed.

Lemma well_formed_line_accepted_witness :
  115 <= List.length (bytes_of sample_digits) /\
  forallb is_ascii_byte (bytes_of sample_digits) = true /\
  (0 <= 127 < 256)%Z /\
  ((sum (bytes_of sample_digits) + 127) mod 256 = 0)%Z /\
  forallb CRLF [x0d; x0a] = true /\
  accept_line 0 (bytes_of sample_digits ++ hex2 true 127 ++ [x0d; x0a]) =
  Ok (0%Z,
      Some (text_of (bytes_of sample_digits ++ hex2 true 127),
            digits_record (text_of (bytes_of sample_digits ++ hex2 true 127)))).
Proof.
  assert (H1 : 115 <= List.length (bytes_of sample_digits)) by (vm_compute; lia).
  assert (H2 : forallb is_ascii_byte (bytes_of sample_digits) = true) by reflexivity.
  assert (H3 : forall i x, numeric_pos i = true ->
                 nth_error (bytes_of sample_digits) i = Some x ->
                 is_digit_byte x = true)
    by (apply numeric_digit_bytes_check; vm_compute; reflexivity).
  assert (H4 : (0 <= 127 < 256)%Z) by lia.
  assert (H5 : ((sum (bytes_of sample_digits) + 127) mod 256 = 0)%Z) by reflexivity.
  assert (H6 : forallb CRLF [x0d; x0a] = true) by reflexivity.
  exact (conj H1 (conj H2 (conj H4 (conj H5 (conj H6
           (well_formed_line_accepted true _ _ 127 0 H1 H2 H3 H4 H5 H6)))))).
Defined.

(** ** What [int] reads in base 10: the literal grammar *)

Lemma is_char_eq (x c : ascii) :
  is_char (String x EmptyString) c = true -> c = x.
Proof. cbn [is_char]. intros H. apply Ascii.eqb_eq in H. now subst. Qed.

Lemma skip_space_decompose l :
  exists pre, l = pre ++ skip_space l /\ forallb is_space pre = true.
Proof.
  induction l as [|c l [pre [E Hpre]]]; cbn [skip_space].
  - now exists [].
  - destruct (is_space c) eqn:Ec.
    + exists (c :: pre). cbn [forallb app]. rewrite Ec, Hpre. now rewrite <- E.
    + now exists [].
Qed.

Lemma skip_space_none l : skip_space l = [] -> forallb is_space l = true.
Proof.
  induction l as [|c l IH]; cbn [skip_space forallb]; [reflexivity|].
  destruct (is_space c); [auto | discriminate].
Qed.

Lemma skip_space_spaces l : forallb is_space l = true -> skip_space l = [].
Proof.
  induction l as [|c l IH]; cbn [skip_space forallb]; [reflexivity|].
  intros H. apply andb_prop in H as [-> Hl]. auto.
Qed.

Lemma skip_space_app_spaces pre x :
  forallb is_space pre = true -> skip_space (pre ++ x) = skip_space x.
Proof.
  induction pre as [|c pre IH]; cbn [skip_space forallb app]; [reflexivity|].
  intros H. apply andb_prop in H as [-> Hp]. auto.
Qed.

Lemma skip_sign_decompose l sg l1 :
  skip_sign l = (sg, l1) ->
  exists sign, l = sign ++ l1 /\
               (sign = [] \/ sign = ["+"%char] \/ sign = ["-"%char]).
Proof.
  destruct l as [|c l]; cbn [skip_sign].
  - intros H. injection H as _ <-. exists []. auto.
  - destruct (is_char "+" c) eqn:E1.
    { apply is_char_eq in E1. subst c. intros H. injection H as _ <-.
      exists ["+"%char]. auto. }
    destruct (is_char "-" c) eqn:E2.
    { apply is_char_eq in E2. subst c. intros H. injection H as _ <-.
      exists ["-"%char]. auto. }
    intros H. injection H as _ <-. exists []. auto.
Qed.

(** What the digit loop has read when it stops. *)
Lemma scan_digits_consumed l :
  forall prev acc n v n' rest,
    scan_digits 10 l prev acc n = Some (v, n', rest) ->
    exists body, l = body ++ rest /\
                 (body = [] -> n' = n) /\
                 (if prev then digit_tail ("_"%char :: body)
                  else digit_tail body).
Proof.
  induction l as [|c l IH]; cbn [scan_digits]; intros prev acc n v n' rest H.
  - destruct prev; [discriminate|]. injection H as _ <- <-.
    exists []. repeat split. constructor.
  - destruct (is_char "_" c) eqn:Eu.
    { destruct prev; [discriminate|]. apply is_char_eq in Eu. subst c.
      apply IH in H as [body [-> [_ Ht]]]. exists ("_"%char :: body).
      repeat split; [discriminate | assumption]. }
    destruct (digit_value c <? 10)%N eqn:Ed.
    { apply digit_below_10 in Ed.
      apply IH in H as [body [-> [_ Ht]]]. exists (c :: body).
      split; [reflexivity|]. split; [discriminate|].
      destruct prev; now constructor. }
    destruct prev; [discriminate|]. injection H as _ <- <-.
    exists []. repeat split. constructor.
Qed.

Lemma int_accepted_is_literal l v : int_ l 10 = Ok v -> int_literal l.
Proof.
  unfold int_. destruct (skip_space_decompose l) as [pre [El Hpre]].
  destruct (skip_sign (skip_space l)) as [sg l1] eqn:Es.
  apply skip_sign_decompose in Es as [sign [Es Hsign]].
  rewrite skip_prefix_10.
  destruct l1 as [|c t]; [discriminate|].
  destruct (is_char "_" c) eqn:Eu; [discriminate|].
  destruct (scan_digits 10 (c :: t) false 0 0) as [[[v' [|n']] rest]|] eqn:E;
    try discriminate.
  destruct (skip_space rest) eqn:Er; [|discriminate]. intros _.
  apply scan_digits_consumed in E as [body [Eb [Hn Ht]]].
  destruct body as [|c0 t0]; [specialize (Hn eq_refl); discriminate|].
  cbn [app] in Eb. injection Eb as <- Et.
  exists pre, sign, (c :: t0), rest. rewrite El at 1. rewrite Es, Et.
  repeat split; try assumption.
  - inversion Ht as [|? ? Hc Ht0|? ? Hc Ht0]; subst.
    + exists c, t0. auto.
    + discriminate.
  - now apply skip_space_none.
Qed.

Lemma space_char_facts c :
  is_space c = true ->
  is_char "_" c = false /\ (digit_value c <? 10)%N = false.
Proof.
  destruct c as [[] [] [] [] [] [] [] []]; try discriminate; intros _;
    split; reflexivity.
Qed.

Lemma scan_digits_tail t post :
  digit_tail t -> forallb is_space post = true ->
  forall acc n, exists v n',
    scan_digits 10 (t ++ post) false acc n = Some (v, n', post) /\ n <= n'.
Proof.
  intros Ht Hpost. induction Ht as [|c l Hc _ IH|c l Hc _ IH]; intros acc n.
  - cbn [app]. destruct post as [|s p]; cbn [scan_digits].
    + exists acc, n. auto.
    + cbn [forallb] in Hpost. apply andb_prop in Hpost as [Hs _].
      destruct (space_char_facts s Hs) as [-> ->]. exists acc, n. auto.
  - cbn [app scan_digits].
    destruct (digit_char_facts c Hc) as (_ & _ & _ & -> & -> & _).
    destruct (IH (acc * 10 + digit_value c)%N (S n)) as (v & n' & E & Hn).
    exists v, n'. split; [assumption | lia].
  - cbn [app scan_digits]. change (is_char "_" "_") with true. cbn iota.
    destruct (digit_char_facts c Hc) as (_ & _ & _ & -> & -> & _).
    destruct (IH (acc * 10 + digit_value c)%N (S n)) as (v & n' & E & Hn).
    exists v, n'. split; [assumption | lia].
Qed.

Lemma int_literal_is_accepted l : int_literal l -> exists v, int_ l 10 = Ok v.
Proof.
  intros (pre & sign & body & post & -> & Hpre & Hsign
          & (c & t & -> & Hc & Ht) & Hpost).
  destruct (digit_char_facts c Hc) as (Hs & Hp & Hm & Hu & Hd & _).
  destruct (scan_digits_tail t post Ht Hpost (0 * 10 + digit_value c)%N 1)
    as (v & n' & E & Hn).
  destruct n' as [|n']; [lia|].
  assert (Hscan : scan_digits 10 ((c :: t) ++ post) false 0 0
                  = Some (v, S n', post))
    by (cbn [app scan_digits]; now rewrite Hu, Hd).
  unfold int_. rewrite (skip_space_app_spaces pre _ Hpre).
  destruct Hsign as [-> | [-> | ->]].
  - cbn [app skip_space]. rewrite Hs. cbn [skip_sign]. rewrite Hp, Hm.
    rewrite skip_prefix_10, Hu. change (c :: t ++ post) with ((c :: t) ++ post).
    rewrite Hscan, (skip_space_spaces post Hpost). eauto.
  - cbn [app skip_space]. change (is_space "+") with false. cbn iota.
    cbn [skip_sign]. change (is_char "+" "+") with true. cbn iota.
    rewrite skip_prefix_10. cbn [app]. rewrite Hu.
    change (c :: t ++ post) with ((c :: t) ++ post).
    rewrite Hscan, (skip_space_spaces post Hpost). eauto.
  - cbn [app skip_space]. change (is_space "-") with false. cbn iota.
    cbn [skip_sign]. change (is_char "+" "-") with false.
    change (is_char "-" "-") with true. cbn iota.
    rewrite skip_prefix_10. cbn [app]. rewrite Hu.
    change (c :: t ++ post) with ((c :: t) ++ post).
    rewrite Hscan, (skip_space_spaces post Hpost). eauto.
Qed.

(** The conversion succeeds exactly on the literals. *)
Lemma int_literal_iff l : int_literal l <-> exists v, int_ l 10 = Ok v.
Proof.
  split; [apply int_literal_is_accepted|].
  intros [v H]. exact (int_accepted_is_literal l v H).
Qed.

Lemma mapM_raise_in {A B} (f : A -> result B) l e :
  mapM f l = Raise e -> exists x e', In x l /\ f x = Raise e'.
Proof.
  induction l as [|y l IH]; simpl; [discriminate|].
  destruct (f y) as [v|e0] eqn:Ey; simpl.
  - destruct (mapM f l) as [vs|e1]; [discriminate|].
    intros H. injection H as <-.
    destruct (IH eq_refl) as (x & e' & Hx & Hf). eauto.
  - intros _. exists y, e0. auto.
Qed.

(** C5, amended: for every frame in which the characters of some
    numeric field do not form an integer literal as the conversion
    reads it (optional leading white space, an optional sign [+] or
    [-], then one or more decimal digits where single underscores may
    stand between two digits, then optional trailing white space),
    decoding fails entirely: the decoder returns the failure signal and
    no record.  A frame whose numeric fields all have that form is
    decoded. *)
Theorem parse_rejects_malformed_field (s : str) :
  (forall f, In f numeric_fields -> ~ int_literal (field_text s f) ->
             _parse_ems_line s = Ok None) /\
  ((forall f, In f numeric_fields -> int_literal (field_text s f)) ->
   decodes s = true).
Proof.
  split.
  - intros f Hf Hbad. rewrite parse_line_layout.
    destruct (mapM (field s) numeric_fields) as [vs|e] eqn:E; [|reflexivity].
    destruct (mapM_ok_in _ _ _ _ E Hf) as [v Hv].
    exfalso. apply Hbad. apply int_literal_iff. exists v. exact Hv.
  - intros Hall. unfold decodes. rewrite parse_line_layout.
    destruct (mapM (field s) numeric_fields) as [vs|e] eqn:E; [reflexivity|].
    destruct (mapM_raise_in _ _ _ E) as (f & e' & Hf & Hr).
    destruct (proj1 (int_literal_iff _) (Hall f Hf)) as [v Hv].
    unfold field in Hr. unfold field_text in Hv. congruence.
Qed.

Lemma parse_rejects_malformed_field_witness :
  (In (27, 3) numeric_fields /\
   field_text (str_of sample_inner_minus) (27, 3) = str_of "2-5" /\
   ~ int_literal (field_text (str_of sample_inner_minus) (27, 3)) /\
   _parse_ems_line (str_of sample_inner_minus) = Ok None) /\
  ((forall f, In f numeric_fields ->
              int_literal (field_text (str_of sample_line) f)) /\
   decodes (str_of sample_line) = true).
Proof.
  assert (H1 : In (27, 3) numeric_fields) by (simpl; tauto).
  assert (H2 : ~ int_literal (field_text (str_of sample_inner_minus) (27, 3))).
  { intros H. apply int_literal_iff in H as [v Hv]. vm_compute in Hv.
    discriminate Hv. }
  assert (H3 : forall f, In f numeric_fields ->
                 int_literal (field_text (str_of sample_line) f)).
  { intros f Hf. apply int_literal_iff. simpl in Hf.
    repeat (destruct Hf as [<-|Hf]; [eexists; vm_compute; reflexivity|]).
    contradiction. }
  exact (conj (conj H1 (conj eq_refl (conj H2
                 (proj1 (parse_rejects_malformed_field _) _ H1 H2))))
              (conj H3 (proj2 (parse_rejects_malformed_field _) H3))).
Defined.
